(** * emh-casa-go: the meter value decoding pipeline of [client.go]

  A shallow embedding of the CASA 1.1 gateway client: the logical-name to
  OBIS conversion, the per-item value conversion and result map of
  [GetMeterValues], contract discovery, and URI scheme defaulting.

  Go strings are byte sequences: they are modelled by [string] (a list of
  8-bit [ascii]), [len] by [String.length] and a slice [s[i:j]] by
  [substring i (j - i) s].  Go's [float64] is IEEE 754 binary64 and is
  modelled by the primitive [float].  Go's [map[string]float64] is a
  [gmap string float]. *)

From Stdlib Require Import ZArith Lia List String Ascii Bool DecimalString.
From Stdlib Require Import Floats.
From Stdlib Require DecimalPos DecimalZ.
From stdpp Require Import base gmap strings list.

Open Scope Z_scope.

(** ** Errors *)

(** The two sentinel errors of [strconv]. *)
Inductive NumErr : Type := ErrSyntax | ErrRange.

(** Go [error] values as the client builds them: a [*strconv.NumError], or
  the result of [fmt.Errorf] with its rendered message and, for the [%w]
  verb, the wrapped cause. *)
Inductive error : Type :=
| NumError (Func Num : string) (Err : NumErr)
| Errorf (msg : string)
| Wrapf (msg : string) (cause : error).

(** A Go result pair [(T, error)] in which the value is only meaningful when
  the error is nil. *)
Inductive result (T : Type) : Type :=
| Ok (v : T)
| Err (e : error).
Arguments Ok {T} v.
Arguments Err {T} e.

Definition is_Ok {T} (r : result T) : bool :=
match r with Ok _ => true | Err _ => false end.

(** ** [strings] *)

Module strings.

(** [strings.Index(s, sep)] for a one-byte separator: the offset of its
    first occurrence. *)
Fixpoint IndexByte (s : string) (c : ascii) : option nat :=
  match s with
  | EmptyString => None
  | String a s' =>
      if Ascii.eqb a c then Some O
      else match IndexByte s' c with
           | Some i => Some (S i)
           | None => None
           end
  end.

(** [strings.SplitN(s, sep, 2)] for a one-byte separator: the text before
    the first separator and the rest after it, or [s] alone when the
    separator does not occur. *)
Definition SplitN2 (s : string) (sep : ascii) : list string :=
  match IndexByte s sep with
  | Some i =>
      [substring 0 i s; substring (S i) (String.length s - S i) s]
  | None => [s]
  end.

(** [strings.HasPrefix(s, prefix)]: [s] begins with [prefix]. *)
Fixpoint HasPrefix (s pre : string) {struct pre} : bool :=
  match pre with
  | EmptyString => true
  | String a pre' =>
      match s with
      | EmptyString => false
      | String b s' => Ascii.eqb a b && HasPrefix s' pre'
      end
  end.

(** [strings.TrimPrefix(s, prefix)]: [s] without the leading [prefix], or
    [s] itself when it does not begin with it. *)
Definition TrimPrefix (s pre : string) : string :=
  if HasPrefix s pre
  then substring (String.length pre) (String.length s - String.length pre) s
  else s.

End strings.

(** ** [strconv] *)

Module strconv.

Definition byte_val (c : ascii) : Z := Z.of_N (N_of_ascii c).

(** [lower(c) = c | ('x' - 'X')]. *)
Definition lower (c : Z) : Z := Z.lor c 32.

(** The digit value of one byte in [ParseUint]'s loop, before the check
    against the base; [None] is the [default] arm (syntax error). *)
Definition digit (c : Z) : option Z :=
  if (48 <=? c) && (c <=? 57) then Some (c - 48)
  else if (97 <=? lower c) && (lower c <=? 122) then Some (lower c - 97 + 10)
  else None.

Definition maxUint64 : Z := 2 ^ 64 - 1.

(** The loop of [ParseUint] over the bytes of [s], with the accumulator
    [n : uint64].  The result is the pair Go returns: the value and the
    kind of error, if any. *)
Fixpoint ParseUint_loop (base cutoff maxVal n : Z) (s : string)
  : Z * option NumErr :=
  match s with
  | EmptyString => (n, None)
  | String c s' =>
      match digit (byte_val c) with
      | None => (0, Some ErrSyntax)
      | Some d =>
          if base <=? d then (0, Some ErrSyntax)
          else if cutoff <=? n then (maxVal, Some ErrRange)
          else
            let n := (n * base) mod 2 ^ 64 in
            let n1 := (n + d) mod 2 ^ 64 in
            if (n1 <? n) || (maxVal <? n1) then (maxVal, Some ErrRange)
            else ParseUint_loop base cutoff maxVal n1 s'
      end
  end.

(** [strconv.ParseUint(s, base, bitSize)] for an explicit base in 2..36
    (no prefix detection, no underscores). *)
Definition ParseUint (s : string) (base bitSize : Z) : Z * option NumErr :=
  match s with
  | EmptyString => (0, Some ErrSyntax)
  | _ =>
      let cutoff := maxUint64 / base + 1 in
      let maxVal := 2 ^ bitSize - 1 in
      ParseUint_loop base cutoff maxVal 0 s
  end.

(** Conversion [int64(u)] of a 64-bit pattern. *)
Definition int64 (z : Z) : Z := (z + 2 ^ 63) mod 2 ^ 64 - 2 ^ 63.

(** [strconv.ParseInt(s, base, bitSize)], explicit base. *)
Definition ParseInt (s : string) (base bitSize : Z) : Z * option error :=
  match s with
  | EmptyString => (0, Some (NumError "ParseInt" s ErrSyntax))
  | String c0 rest =>
      let neg := Ascii.eqb c0 "-" in
      let s1 := if Ascii.eqb c0 "+" then rest
                else if neg then rest else s in
      match ParseUint s1 base bitSize with
      | (_, Some ErrSyntax) => (0, Some (NumError "ParseInt" s ErrSyntax))
      | (un, _) =>
          let cutoff := 2 ^ (bitSize - 1) in
          if negb neg && (cutoff <=? un) then
            (int64 (cutoff - 1), Some (NumError "ParseInt" s ErrRange))
          else if neg && (cutoff <? un) then
            (int64 (- int64 cutoff), Some (NumError "ParseInt" s ErrRange))
          else
            let n := int64 un in
            ((if neg then int64 (- n) else n), None)
      end
  end.

(** [%d] of an [int64]: decimal digits with a leading [-] when negative. *)
Definition FormatInt (z : Z) : string :=
  NilZero.string_of_int (Z.to_int z).

End strconv.

(** ** [convertToOBIS] *)

(** [fmt.Sprintf("%d.%d.%d", c, d, e)]. *)
Definition Sprintf_obis (c d e : Z) : string :=
(strconv.FormatInt c ++ "." ++ strconv.FormatInt d ++ "."
   ++ strconv.FormatInt e)%string.

(** [strings.SplitN(logicalName, ".", 2)[0]]. *)
Definition segment (logicalName : string) : string :=
nth 0 (strings.SplitN2 logicalName ".") EmptyString.

(** [convertToOBIS] converts a CASA logical name to the OBIS C.D.E format. *)
Definition convertToOBIS (logicalName : string) : result string :=
let hex := segment logicalName in
if negb (Nat.eqb (String.length hex) 12) then
  Err (Errorf ("unexpected logical name: " ++ logicalName))
else
  match strconv.ParseInt (substring 4 2 hex) 16 64 with
  | (_, Some err) => Err err
  | (c, None) =>
      match strconv.ParseInt (substring 6 2 hex) 16 64 with
      | (_, Some err) => Err err
      | (d, None) =>
          match strconv.ParseInt (substring 8 2 hex) 16 64 with
          | (_, Some err) => Err err
          | (e, None) => Ok (Sprintf_obis c d e)
          end
      end
  end.

(** ** [math] *)

Module math.

(** The conversion [float64(n)] of a Go integer: round to nearest, ties to
    even. *)
Definition float64_of_int (n : Z) : float :=
  SF2Prim (binary_normalize prec emax n 0 false).

(** The conversion [int64(f)] of an integral float below [2^63] in
    magnitude. *)
Definition int64_of_float (f : float) : Z :=
  match Prim2SF f with
  | S754_finite s m e =>
      let a := if 0 <=? e then Z.pos m * 2 ^ e else Z.pos m / 2 ^ (- e) in
      if s then - a else a
  | _ => 0
  end.

(** [math.Frexp]: [f = frac * 2^exp] with [frac] in [[1/2, 1)]; zero,
    infinities and NaN are returned with exponent 0. *)
Definition Frexp (f : float) : float * Z :=
  if is_zero f || is_infinity f || is_nan f then (f, 0) else Z.frexp f.

(** [math.Ldexp]: the inverse of [Frexp], [frac * 2^exp] rounded once. *)
Definition Ldexp (frac : float) (exp : Z) : float := Z.ldexp frac exp.

Definition Signbit (x : float) : bool := get_sign x.

(** [isOddInt(y)] for an integral [y = float64(n)]. *)
Definition isOddInt (y : float) : bool :=
  if (9007199254740992 <=? abs y)%float then false
  else Z.odd (int64_of_float y).

(** The arm [x == 0] of [pow]'s special cases.  It is entered with [y]
    neither zero nor NaN, so one of the two comparisons holds and the last
    branch is never taken. *)
Definition pow_zero (x y : float) : float :=
  if (y <? 0)%float then
    (if Signbit x && isOddInt y then neg_infinity else infinity)
  else if (0 <? y)%float then
    (if Signbit x && isOddInt y then x else 0%float)
  else nan.

(** The loop [for i := int64(yi); i != 0; i >>= 1] of [pow], which
    multiplies the answer [a1 * 2^ae] by [x^i] for [x = x1 * 2^xe].  [xe]
    stays within [-8192, 8192] and [ae] within 64 times that, so the Go
    [int] arithmetic never wraps. *)
Fixpoint pow_loop (i : positive) (a1 : float) (ae : Z) (x1 : float) (xe : Z)
  : float * Z :=
  if (xe <? - 4096) || (4096 <? xe) then (a1, ae + xe)
  else
    let '(a1, ae) :=
      match i with
      | xO _ => (a1, ae)
      | _ => ((a1 * x1)%float, ae + xe)
      end in
    let x1 := (x1 * x1)%float in
    let xe := 2 * xe in
    let '(x1, xe) :=
      if (x1 <? 0.5)%float then ((x1 + x1)%float, xe - 1) else (x1, xe) in
    match i with
    | xH => (a1, ae)
    | xO p | xI p => pow_loop p a1 ae x1 xe
    end.

(** [math.Pow(x, float64(n))]: the exponent is given as the integer it is
    converted from, so the branches of [pow] for a fractional [y]
    ([y == 0.5], [y == -0.5], [yf != 0]) and for an infinite [y] cannot be
    taken and are left out; [Modf(Abs(y))] is [(Abs(y), 0)].  In the arm
    for an infinite [x], [Pow(1/x, -y)] is [Pow] of a negative zero, which
    ends in the arm [x == 0]; [y] is neither zero nor NaN there, so the
    closing [nan] is never returned. *)
Definition Pow (x : float) (n : Z) : float :=
  let y := float64_of_int n in
  if (y =? 0)%float || (x =? 1)%float then 1%float
  else if (y =? 1)%float then x
  else if is_nan x || is_nan y then nan
  else if (x =? 0)%float then pow_zero x y
  else if is_infinity x then
    (if (x =? neg_infinity)%float then pow_zero (1 / x)%float (- y)%float
     else if (y <? 0)%float then 0%float
     else if (0 <? y)%float then infinity
     else nan)
  else
    let yi := abs y in
    if (9223372036854775808 <=? yi)%float then
      (if (x =? -1)%float then 1%float
       else if Bool.eqb (abs x <? 1)%float (0 <? y)%float then 0%float
       else infinity)
    else
      let '(x1, xe) := Frexp x in
      let '(a1, ae) :=
        pow_loop (Z.to_pos (int64_of_float yi)) 1%float 0 x1 xe in
      let '(a1, ae) :=
        if (y <? 0)%float then ((1 / a1)%float, - ae) else (a1, ae) in
      Ldexp a1 ae.

End math.

(** ** Wire types and collaborators *)

(** Modelled from the spec: the reading item of the extended reading
    document, [{logicalName: string, value: string, scaler: int, unit:
    int}]; its Go declaration is not among the files, [GetMeterValues] reads
    the four fields below. *)
Record MeterValue : Type := {
  LogicalName : string;
  Value : string;
  Scaler : Z;
  Unit : Z
}.

(** Modelled from the spec: the extended reading document, [{values:
    sequence of reading items}]. *)
Record MeterReading : Type := { Values : list MeterValue }.

(** Modelled from the spec: the contract detail document, [{sensorDomains:
    sequence of strings}]. *)
Record DerivedContract : Type := { SensorDomains : list string }.

(** What [getJSON] looks at in an [*http.Response]: the status code and the
    body, whose read by [io.ReadAll] may fail. *)
Record Response : Type := {
  StatusCode : Z;
  Body : result string
}.

(** The gateway as seen through [c.httpClient.Get]: the answer to a GET of a
    URI, or a transport error. *)
Class Gateway : Type := { Get : string -> result Response }.

(** The library decoders the client calls: [json.Unmarshal] at the three
    target shapes, and [strconv.ParseFloat(s, 64)]. *)
Class Decoders : Type := {
  Unmarshal_contracts : string -> result (list string);
  Unmarshal_contract : string -> result DerivedContract;
  Unmarshal_reading : string -> result MeterReading;
  ParseFloat : string -> result float
}.

(** ** The client *)

(** The fields of [Client] next to the HTTP client, which is the [Gateway]. *)
Record Client : Type := {
  uri : string;
  meterID : string
}.

Definition StatusOK : Z := 200.

(** [getJSON] makes a JSON API call and unmarshals the response into the
    shape decoded by [Unmarshal]. *)
Definition getJSON `{Gateway} {T : Type} (Unmarshal : string -> result T)
    (uri : string) : result T :=
  match Get uri with
  | Err err => Err (Wrapf "request failed: " err)
  | Ok resp =>
      if negb (StatusCode resp =? StatusOK) then
        Err (Errorf ("unexpected status code: "
                       ++ strconv.FormatInt (StatusCode resp)))
      else
        match Body resp with
        | Err err => Err (Wrapf "failed to read response body: " err)
        | Ok body =>
            match Unmarshal body with
            | Err err => Err (Wrapf "failed to unmarshal JSON: " err)
            | Ok v => Ok v
            end
        end
  end.

(** The loop [for _, id := range contracts] of [DiscoverMeterID]: the client
    after the loop and the error returned. *)
Fixpoint DiscoverMeterID_loop `{Gateway} `{Decoders} (c : Client)
    (contracts : list string) : Client * option error :=
  match contracts with
  | [] => (c, Some (Errorf "no contract with sensor domains found"))
  | id :: rest =>
      match getJSON Unmarshal_contract
              (uri c ++ "/json/metering/derived/" ++ id) with
      | Err _ => DiscoverMeterID_loop c rest
      | Ok contract =>
          if (0 <? length (SensorDomains contract))%nat then
            ({| uri := uri c;
                meterID := nth 0 (SensorDomains contract) EmptyString |},
             None)
          else DiscoverMeterID_loop c rest
      end
  end.

(** [DiscoverMeterID] finds the first contract with sensor domains and sets
    the client's meter ID. *)
Definition DiscoverMeterID `{Gateway} `{Decoders} (c : Client)
    : Client * option error :=
  match getJSON Unmarshal_contracts (uri c ++ "/json/metering/derived") with
  | Err err => (c, Some (Wrapf "failed to get contracts: " err))
  | Ok contracts => DiscoverMeterID_loop c contracts
  end.

(** One iteration of [for _, item := range reading.Values] in
    [GetMeterValues], on the map built so far. *)
Definition GetMeterValues_item `{Decoders} (values : gmap string float)
    (item : MeterValue) : gmap string float :=
  match convertToOBIS (LogicalName item) with
  | Err _ => values
  | Ok obis =>
      match ParseFloat (Value item) with
      | Err _ => values
      | Ok raw =>
          let val := (raw * math.Pow 10 (Scaler item))%float in
          if Unit item =? 27 then <[obis := val]> values
          else if Unit item =? 30 then <[obis := (val / 1000)%float]> values
          else if Unit item =? 33 then <[obis := val]> values
          else if Unit item =? 35 then <[obis := val]> values
          else if Unit item =? 44 then <[obis := val]> values
          else values
      end
  end.

(** The whole loop, starting from [make(map[string]float64)]. *)
Definition GetMeterValues_loop `{Decoders} (items : list MeterValue)
    : gmap string float :=
  fold_left GetMeterValues_item items ∅.

(** [GetMeterValues] fetches and parses current meter readings from the
    gateway. *)
Definition GetMeterValues `{Gateway} `{Decoders} (c : Client)
    : result (gmap string float) :=
  if String.eqb (meterID c) "" then Err (Errorf "meter ID not set")
  else
    match getJSON Unmarshal_reading
            (uri c ++ "/json/metering/origin/" ++ meterID c ++ "/extended") with
    | Err err => Err (Wrapf "failed to get meter values: " err)
    | Ok reading =>
        let values := GetMeterValues_loop (Values reading) in
        if (size values =? 0)%nat then
          Err (Errorf "no valid meter values found")
        else Ok values
    end.

(** [defaultScheme] adds a default scheme if missing. *)
Definition defaultScheme (uri scheme : string) : string :=
  if negb (strings.HasPrefix uri "http://")
     && negb (strings.HasPrefix uri "https://")
  then scheme ++ "://" ++ uri
  else uri.

(** [parseURIHost] extracts the host from a URI. *)
Definition parseURIHost (uri : string) : result string :=
  let uri := strings.TrimPrefix uri "https://" in
  let uri := strings.TrimPrefix uri "http://" in
  let uri :=
    match strings.IndexByte uri "/" with
    | Some idx => substring 0 idx uri
    | None => uri
    end in
  let uri :=
    match strings.IndexByte uri ":" with
    | Some idx => substring 0 idx uri
    | None => uri
    end in
  if String.eqb uri "" then Err (Errorf "invalid uri") else Ok uri.

(** [MeterID] returns the currently configured meter ID. *)
Definition MeterID (c : Client) : string := meterID c.

(** The HTTP client [NewClient] builds: a TLS transport wrapped by the host
    header transport for [host] and by the digest transport for [user] and
    [password], seen as the gateway it gives access to. *)
Class Network : Type := { Dial : string -> string -> string -> Gateway }.

(** [NewClient] creates a new CASA client with HTTP digest authentication.
    The result pairs the HTTP client with the other fields of [Client]. *)
Definition NewClient `{Network} `{Decoders}
    (uri user password meterID hostHeader : string)
    : result (Gateway * Client) :=
  if String.eqb uri "" then Err (Errorf "uri is required")
  else if String.eqb user "" || String.eqb password "" then
    Err (Errorf "credentials are required")
  else
    let uri := defaultScheme uri "https" in
    let derived :=
      if String.eqb hostHeader "" then
        match parseURIHost uri with
        | Err err =>
            Err (Wrapf "host required and could not be derived: " err)
        | Ok derived => Ok derived
        end
      else Ok hostHeader in
    match derived with
    | Err err => Err err
    | Ok host =>
        let httpClient := Dial user password host in
        let c := {| uri := uri; meterID := meterID |} in
        if String.eqb (MeterID c) "" then
          match @DiscoverMeterID httpClient _ c with
          | (_, Some err) => Err (Wrapf "failed to discover meter ID: " err)
          | (c', None) => Ok (httpClient, c')
          end
        else Ok (httpClient, c)
    end.

(** ** The digest authentication transport *)

Module digest.

(** Modelled from the spec: the Digest Authentication Transport of section
    4.1 (the transport built by [NewDigestTransport], whose source is not
    among the files; [NewClient] only installs it).  The model follows the
    four steps of the section: send with a cached challenge, fall back to an
    unauthenticated request, answer the challenge with exactly one resend,
    cache the challenge state. *)
Record Credentials : Type := { username : string; password : string }.

(** Modelled from the spec: the challenge parameters of section 3, with the
    staleness indicator of the challenge header. *)
Record Challenge : Type := {
  realm : string;
  nonce : string;
  opaque : string;
  algorithm : string;
  qop : string;
  stale : bool
}.

(** Modelled from the spec: the cached challenge with its nonce-count, a
    32-bit counter. *)
Record ChallengeState : Type := {
  challenge : Challenge;
  nonceCount : Z
}.

(** Modelled from the spec: the fields of the Authorization header. *)
Record Authorization : Type := {
  auth_username : string;
  auth_realm : string;
  auth_nonce : string;
  auth_uri : string;
  auth_response : string;
  auth_opaque : string;
  auth_algorithm : string;
  auth_qop : string;
  auth_nc : Z;
  auth_cnonce : string
}.

(** Modelled from the spec: an outbound request, as far as the transport
    reads or writes it. *)
Record Request : Type := {
  method : string;
  requestURI : string;
  authority : string;
  body : string;
  authorization : option Authorization
}.

(** Modelled from the spec: a response of the next transport, its status
    and its challenge header, if any. *)
Record Reply : Type := {
  status : Z;
  wwwAuthenticate : option string
}.

(** Modelled from the spec: the collaborators of the transport.  [send] is
    the next transport in the chain together with the server behind it, a
    state machine on [S]; [parseChallenge] fails on a header whose required
    fields are missing or malformed; [hash] is the negotiated digest
    algorithm; [clientNonce] yields the fresh client nonce of an attempt. *)
Class Collaborators (Srv : Type) : Type := {
  send : Srv -> Request -> Srv * result Reply;
  parseChallenge : string -> option Challenge;
  hash : string -> string -> string;
  clientNonce : nat -> string
}.

(** Modelled from the spec: the shared state of the transport, the cached
    challenge per authority and the number of attempts made so far. *)
Record Transport : Type := {
  credentials : Credentials;
  cache : gmap string ChallengeState;
  attempts : nat
}.

(** The three kinds of send of section 4.1: with the cached challenge (step
    1), unauthenticated (step 2), and the resend that answers a challenge
    (step 3). *)
Inductive Phase : Type := Cached | Unauthenticated | Resend.

(** One entry of the trace of a round trip: the kind of send, the request
    sent and what the next transport answered. *)
Definition Event : Type := Phase * Request * result Reply.

Definition StatusUnauthorized : Z := 401.

(** Modelled from the spec: step 3, the response digest and the
    Authorization header built from it. *)
Definition authorize {Srv : Type} `{Collaborators Srv} (cred : Credentials)
    (cs : ChallengeState) (cnonce : string) (req : Request) : Request :=
  let ch := challenge cs in
  let H := hash (algorithm ch) in
  let nc := strconv.FormatInt (nonceCount cs) in
  let ha1 :=
    H (username cred ++ ":" ++ realm ch ++ ":" ++ password cred)%string in
  let ha2 :=
    if String.eqb (qop ch) "auth-int"
    then H (method req ++ ":" ++ requestURI req ++ ":" ++ H (body req))%string
    else H (method req ++ ":" ++ requestURI req)%string in
  let response :=
    H (ha1 ++ ":" ++ nonce ch ++ ":" ++ nc ++ ":" ++ cnonce ++ ":"
         ++ qop ch ++ ":" ++ ha2)%string in
  {| method := method req;
     requestURI := requestURI req;
     authority := authority req;
     body := body req;
     authorization :=
       Some {| auth_username := username cred;
               auth_realm := realm ch;
               auth_nonce := nonce ch;
               auth_uri := requestURI req;
               auth_response := response;
               auth_opaque := opaque ch;
               auth_algorithm := algorithm ch;
               auth_qop := qop ch;
               auth_nc := nonceCount cs;
               auth_cnonce := cnonce |} |}.

(** Modelled from the spec: the challenge carried by a reply, when it is a
    401 with a well-formed challenge header. *)
Definition challenge_of {Srv : Type} `{Collaborators Srv} (r : Reply)
    : option Challenge :=
  if status r =? StatusUnauthorized then
    match wwwAuthenticate r with
    | Some h => parseChallenge h
    | None => None
    end
  else None.

(** Modelled from the spec: steps 2 to 4.  The request goes out
    unauthenticated; a reply that is not a challenge is an
    AuthenticationError; a challenge is answered by one resend, whose
    outcome is returned as it is. *)
Definition challengeRoundTrip {Srv : Type} `{Collaborators Srv}
    (t : Transport) (srv : Srv) (req : Request)
    : Transport * Srv * list Event * result Reply :=
  let '(srv1, r1) := send srv req in
  let ev1 : Event := (Unauthenticated, req, r1) in
  match r1 with
  | Err e => (t, srv1, [ev1], Err e)
  | Ok reply1 =>
      match challenge_of reply1 with
      | None =>
          (t, srv1, [ev1],
           Err (Errorf "authentication failed: response is not a challenge"))
      | Some ch =>
          let cs := {| challenge := ch; nonceCount := 1 |} in
          let req2 := authorize (credentials t) cs (clientNonce (attempts t))
                        req in
          let '(srv2, r2) := send srv1 req2 in
          ({| credentials := credentials t;
              cache := <[authority req := cs]> (cache t);
              attempts := S (attempts t) |},
           srv2, [ev1; (Resend, req2, r2)], r2)
      end
  end.

(** Modelled from the spec: the round trip of one request.  Step 1 reuses a
    cached challenge with an incremented nonce-count; a reply carrying a
    fresh challenge (another nonce, or the staleness indicator) invalidates
    the cache entry and falls through to step 2. *)
Definition RoundTrip {Srv : Type} `{Collaborators Srv}
    (t : Transport) (srv : Srv) (req : Request)
    : Transport * Srv * list Event * result Reply :=
  match cache t !! authority req with
  | None => challengeRoundTrip t srv req
  | Some cs =>
      let cs1 := {| challenge := challenge cs;
                    nonceCount := (nonceCount cs + 1) mod 2 ^ 32 |} in
      let req1 := authorize (credentials t) cs1 (clientNonce (attempts t))
                    req in
      let '(srv1, r1) := send srv req1 in
      let ev1 : Event := (Cached, req1, r1) in
      let t1 := {| credentials := credentials t;
                   cache := <[authority req := cs1]> (cache t);
                   attempts := S (attempts t) |} in
      let fresh :=
        match r1 with
        | Ok reply1 =>
            match challenge_of reply1 with
            | Some ch =>
                stale ch || negb (String.eqb (nonce ch) (nonce (challenge cs)))
            | None => false
            end
        | Err _ => false
        end in
      if fresh then
        let t2 := {| credentials := credentials t1;
                     cache := delete (authority req) (cache t1);
                     attempts := attempts t1 |} in
        let '(t3, srv3, evs, r) := challengeRoundTrip t2 srv1 req in
        (t3, srv3, ev1 :: evs, r)
      else (t1, srv1, [ev1], r1)
  end.

(** The number of resends in a trace. *)
Definition resends (evs : list Event) : nat :=
  length (List.filter (fun ev => match ev with
                            | (Resend, _, _) => true
                            | _ => false
                            end) evs).

(** Modelled from the spec: a server that answers every request with a 401
    that carries a well-formed challenge whose nonce is none of [used]. *)
Definition always_challenges {Srv : Type} `{Collaborators Srv}
    (used : list string) : Prop :=
  forall (s : Srv) (rq : Request),
    exists s' reply ch,
      send s rq = (s', Ok reply) /\ challenge_of reply = Some ch
      /\ stale ch = false /\ nonce ch ∉ used.

(** The nonce cached for the authority of a request, if any. *)
Definition cached_nonces (t : Transport) (req : Request) : list string :=
  match cache t !! authority req with
  | Some cs => [nonce (challenge cs)]
  | None => []
  end.

End digest.

(** ** Reference definitions for the statements *)

#[global] Instance NumErr_eq_dec : EqDecision NumErr.
Proof. solve_decision. Defined.

#[global] Instance error_eq_dec : EqDecision error.
Proof. solve_decision. Defined.

(** A hexadecimal character: [0-9], [a-f] or [A-F]. *)
Definition is_hex_digit (c : ascii) : bool :=
  let n := nat_of_ascii c in
  ((48 <=? n) && (n <=? 57) || (97 <=? n) && (n <=? 102)
   || (65 <=? n) && (n <=? 70))%nat.

(** The value of a hexadecimal character, upper or lower case. *)
Definition hex_digit_value (c : ascii) : Z :=
  let n := Z.of_nat (nat_of_ascii c) in
  if n <=? 57 then n - 48 else if n <=? 70 then n - 55 else n - 87.

Fixpoint all_hex (s : string) : bool :=
  match s with
  | EmptyString => true
  | String c s' => is_hex_digit c && all_hex s'
  end.

(** The number a string of hexadecimal characters denotes, most significant
    digit first. *)
Fixpoint hex_value_from (acc : Z) (s : string) : Z :=
  match s with
  | EmptyString => acc
  | String c s' => hex_value_from (16 * acc + hex_digit_value c) s'
  end.

Definition hex_value (s : string) : Z := hex_value_from 0 s.

(** The decimal string "C.D.E" of the three hex pairs at characters 4-6,
    6-8 and 8-10 of a segment. *)
Definition obis_of_segment (hex : string) : string :=
  (strconv.FormatInt (hex_value (substring 4 2 hex)) ++ "."
   ++ strconv.FormatInt (hex_value (substring 6 2 hex)) ++ "."
   ++ strconv.FormatInt (hex_value (substring 8 2 hex)))%string.

(** ASCII case folding: [A-Z] to [a-z], every other byte unchanged. *)
Definition fold_case_ascii (c : ascii) : ascii :=
  let n := nat_of_ascii c in
  if ((65 <=? n) && (n <=? 90))%nat then ascii_of_nat (n + 32) else c.

Fixpoint fold_case (s : string) : string :=
  match s with
  | EmptyString => EmptyString
  | String c s' => String (fold_case_ascii c) (fold_case s')
  end.

(** What [ParseInt(s, 16, 64)] accepts of a two-character string: two hex
    characters, or a sign followed by one hex character. *)
Definition signed_pair_value (a b : ascii) : option Z :=
  if is_hex_digit b then
    if is_hex_digit a then Some (16 * hex_digit_value a + hex_digit_value b)
    else if Ascii.eqb a "+" then Some (hex_digit_value b)
    else if Ascii.eqb a "-" then Some (- hex_digit_value b)
    else None
  else None.

(** The pair of characters at offsets [i] and [i + 1] is acceptable. *)
Definition pair_ok (hex : string) (i : nat) : bool :=
  match String.get i hex, String.get (S i) hex with
  | Some a, Some b =>
      match signed_pair_value a b with Some _ => true | None => false end
  | _, _ => false
  end.

(** Every byte, in order. *)
Definition all_ascii : list ascii := List.map ascii_of_nat (seq 0 256).

Definition forall_ascii (P : ascii -> bool) : bool := forallb P all_ascii.

(** The twelve characters of a string of length 12. *)
Definition twelve (c0 c1 c2 c3 c4 c5 c6 c7 c8 c9 c10 c11 : ascii) : string :=
  String c0 (String c1 (String c2 (String c3 (String c4 (String c5
    (String c6 (String c7 (String c8 (String c9 (String c10 (String c11
      EmptyString))))))))))).

(** The outcome of the three [ParseInt] calls, in terms of the accepted
    two-character inputs. *)
Definition convert_pairs (c4 c5 c6 c7 c8 c9 : ascii) : result string :=
  match signed_pair_value c4 c5 with
  | None =>
      Err (NumError "ParseInt" (String c4 (String c5 EmptyString)) ErrSyntax)
  | Some c =>
      match signed_pair_value c6 c7 with
      | None =>
          Err (NumError "ParseInt" (String c6 (String c7 EmptyString))
                 ErrSyntax)
      | Some d =>
          match signed_pair_value c8 c9 with
          | None =>
              Err (NumError "ParseInt" (String c8 (String c9 EmptyString))
                     ErrSyntax)
          | Some e => Ok (Sprintf_obis c d e)
          end
      end
  end.

(** The unit codes of the [switch] in [GetMeterValues]: W, Wh, A, V, Hz. *)
Definition known_units : list Z := [27; 30; 33; 35; 44].

(** The converted value of an item: raw times ten to the scaler, divided by
    1000 for watt-hours (code 30), unchanged for the other known codes. *)
Definition converted (raw : float) (scaler unit : Z) : float :=
  let val := (raw * math.Pow 10 scaler)%float in
  if unit =? 30 then (val / 1000)%float else val.

(** Per-item validation: the entry an item contributes to the result
    mapping, if it survives: its logical name converts, its value parses and
    its unit code is known. *)
Definition entry `{Decoders} (item : MeterValue) : option (string * float) :=
  match convertToOBIS (LogicalName item), ParseFloat (Value item) with
  | Ok obis, Ok raw =>
      if bool_decide (Unit item ∈ known_units)
      then Some (obis, converted raw (Scaler item) (Unit item))
      else None
  | _, _ => None
  end.

(** The error [GetMeterValues] returns on an empty result mapping. *)
Definition NoDataError : error := Errorf "no valid meter values found".

(** The URI of the extended reading document of the client's meter. *)
Definition reading_uri (c : Client) : string :=
  (uri c ++ "/json/metering/origin/" ++ meterID c ++ "/extended")%string.

(** The URI of the contract detail document of [id]. *)
Definition contract_uri (c : Client) (id : string) : string :=
  (uri c ++ "/json/metering/derived/" ++ id)%string.

(** The error [DiscoverMeterID] returns when no contract is eligible. *)
Definition DiscoveryError : error :=
  Errorf "no contract with sensor domains found".

(** The first sensor domain of a contract, when its detail document can be
    fetched and lists at least one. *)
Definition first_domain `{Gateway} `{Decoders} (c : Client) (id : string)
    : option string :=
  match getJSON Unmarshal_contract (contract_uri c id) with
  | Ok contract => head (SensorDomains contract)
  | Err _ => None
  end.

(** The client after a successful discovery of [d]. *)
Definition with_meterID (c : Client) (d : string) : Client :=
  {| uri := uri c; meterID := d |}.

(** ** Stand-ins for the collaborators, for the examples *)

Fixpoint digits_value (acc : Z) (s : string) : option Z :=
  match s with
  | EmptyString => Some acc
  | String c s' =>
      let n := Z.of_nat (nat_of_ascii c) in
      if (48 <=? n) && (n <=? 57) then digits_value (10 * acc + (n - 48)) s'
      else None
  end.

(** [strconv.ParseFloat] on the inputs of the examples: a string of decimal
    digits below [2^53] denotes an integer that [float64] holds exactly.
    The stand-in refuses every other input. *)
Definition ParseFloat_digits (s : string) : result float :=
  match s with
  | EmptyString => Err (NumError "ParseFloat" s ErrSyntax)
  | _ =>
      match digits_value 0 s with
      | Some n =>
          if n <? 2 ^ 53 then Ok (math.float64_of_int n)
          else Err (NumError "ParseFloat" s ErrSyntax)
      | None => Err (NumError "ParseFloat" s ErrSyntax)
      end
  end.

Fixpoint assoc {A : Type} (k : string) (l : list (string * A)) : option A :=
  match l with
  | [] => None
  | (k', v) :: l' => if String.eqb k k' then Some v else assoc k l'
  end.

(** A gateway that answers every GET with status 200 and the requested URI
    as the body, so that the decoders below can serve documents by URI. *)
Definition stub_gateway : Gateway :=
  {| Get := fun uri => Ok {| StatusCode := StatusOK; Body := Ok uri |} |}.

(** Decoders that serve a fixed contract list, the contract details listed
    by URI in [details] (any other body is malformed) and a fixed reading
    document. *)
Definition stub_decoders (contracts : list string)
    (details : list (string * DerivedContract)) (reading : MeterReading)
    : Decoders :=
  {| Unmarshal_contracts := fun _ => Ok contracts;
     Unmarshal_contract := fun body =>
       match assoc body details with
       | Some d => Ok d
       | None => Err (Errorf "unexpected end of JSON input")
       end;
     Unmarshal_reading := fun _ => Ok reading;
     ParseFloat := ParseFloat_digits |}.

Definition stub_client : Client :=
  {| uri := "https://192.168.33.2"; meterID := "1EMH0012345678" |}.

Definition item_of (name value : string) (scaler unit : Z) : MeterValue :=
  {| LogicalName := name; Value := value; Scaler := scaler; Unit := unit |}.


(** A digest server that rejects everything: every request is answered with
    a 401 whose challenge carries the number of requests seen so far as its
    nonce. *)
Definition rejecting_server : digest.Collaborators nat :=
  {| digest.send := fun (n : nat) (_ : digest.Request) =>
       (S n, Ok {| digest.status := digest.StatusUnauthorized;
                   digest.wwwAuthenticate :=
                     Some (strconv.FormatInt (Z.of_nat n)) |});
     digest.parseChallenge := fun h =>
       Some {| digest.realm := "casa"; digest.nonce := h;
               digest.opaque := ""; digest.algorithm := "MD5";
               digest.qop := "auth"; digest.stale := false |};
     digest.hash := fun _ s => s;
     digest.clientNonce := fun n => strconv.FormatInt (Z.of_nat n) |}.

Definition stub_transport : digest.Transport :=
  {| digest.credentials :=
       {| digest.username := "admin"; digest.password := "secret" |};
     digest.cache := ∅;
     digest.attempts := 0 |}.

Definition stub_request : digest.Request :=
  {| digest.method := "GET";
     digest.requestURI := "/json/metering/derived";
     digest.authority := "192.168.33.2";
     digest.body := "";
     digest.authorization := None |}.

(** The document of the two worked conversions: 150 Wh with scaler 2, and
    2345 W with scaler 0. *)
Definition examples_reading : MeterReading :=
  {| Values := [item_of "0100010800ff" "150" 2 30;
                item_of "0100100700ff" "2345" 0 27] |}.

(** A document whose items all carry unknown unit codes. *)
Definition unknown_units_reading : MeterReading :=
  {| Values := [item_of "0100010800ff" "150" 2 31;
                item_of "0100100700ff" "2345" 0 99] |}.

(** A document with two surviving items under the key 1.8.0. *)
Definition duplicate_reading : MeterReading :=
  {| Values := [item_of "0100010800ff" "150" 2 30;
                item_of "0100010800ff.255" "2345" 0 27] |}.

(** Contracts A (no sensor domains), B (sensor domains X, Y), C (Z). *)
Definition abc_decoders : Decoders :=
  stub_decoders ["A"; "B"; "C"]%string
    [("https://192.168.33.2/json/metering/derived/A"%string,
      {| SensorDomains := [] |});
     ("https://192.168.33.2/json/metering/derived/B"%string,
      {| SensorDomains := ["X"; "Y"]%string |});
     ("https://192.168.33.2/json/metering/derived/C"%string,
      {| SensorDomains := ["Z"]%string |})]
    {| Values := [] |}.

(** ** Further reference definitions *)

(** The longest prefix of [s] in which the byte [c] does not occur. *)
Fixpoint take_until (c : ascii) (s : string) : string :=
  match s with
  | EmptyString => EmptyString
  | String a s' =>
      if Ascii.eqb a c then EmptyString else String a (take_until c s')
  end.

(** The byte [c] occurs in [s]. *)
Fixpoint occurs (c : ascii) (s : string) : bool :=
  match s with
  | EmptyString => false
  | String a s' => Ascii.eqb a c || occurs c s'
  end.

(** The uri of [parseURIHost] after its two calls of [TrimPrefix]. *)
Definition strip_scheme (uri : string) : string :=
  strings.TrimPrefix (strings.TrimPrefix uri "https://") "http://".

(** The error of [getJSON] on an answer whose status is not 200. *)
Definition StatusError (resp : Response) : error :=
  Errorf ("unexpected status code: " ++ strconv.FormatInt (StatusCode resp)).

(** A gateway that answers every GET with status 404. *)
Definition not_found_gateway : Gateway :=
  {| Get := fun _ => Ok {| StatusCode := 404; Body := Ok "" |} |}.

(** A network whose every HTTP client reaches the stub gateway. *)
Definition stub_network : Network := {| Dial := fun _ _ _ => stub_gateway |}.

(** * Theorems *)

(** ** Bytes and two-character strings *)

Lemma all_ascii_complete (a : ascii) : In a all_ascii.
Proof.
  unfold all_ascii. rewrite <- (ascii_nat_embedding a).
  apply in_map, in_seq. pose proof (nat_ascii_bounded a). lia.
Qed.

Lemma forall_ascii_spec (P : ascii -> bool) :
  forall_ascii P = true -> forall a, P a = true.
Proof.
  unfold forall_ascii. rewrite forallb_forall.
  intros HP a. apply HP, all_ascii_complete.
Qed.

Lemma forall_ascii2_spec (P : ascii -> ascii -> bool) :
  forall_ascii (fun a => forall_ascii (P a)) = true ->
  forall a b, P a b = true.
Proof.
  intros HP a b.
  apply (forall_ascii_spec (P a)), (forall_ascii_spec _ HP).
Qed.

(** [ParseInt] on a two-character string, base 16: the accepted inputs and
    their values, and the syntax error otherwise. *)
Lemma ParseInt_pair (a b : ascii) :
  strconv.ParseInt (String a (String b EmptyString)) 16 64 =
    match signed_pair_value a b with
    | Some v => (v, None)
    | None =>
        (0, Some (NumError "ParseInt" (String a (String b EmptyString))
                    ErrSyntax))
    end.
Proof.
  pose (chk := fun a b : ascii =>
    bool_decide
      (strconv.ParseInt (String a (String b EmptyString)) 16 64 =
         match signed_pair_value a b with
         | Some v => (v, None)
         | None =>
             (0, Some (NumError "ParseInt" (String a (String b EmptyString))
                         ErrSyntax))
         end)).
  assert (Hall : forall a b, chk a b = true).
  { apply forall_ascii2_spec. vm_compute. reflexivity. }
  specialize (Hall a b). unfold chk in Hall.
  by apply bool_decide_eq_true in Hall.
Qed.

Lemma fold_case_hex (a b : ascii) :
  fold_case_ascii a = fold_case_ascii b ->
  is_hex_digit a = true ->
  is_hex_digit b = true /\ hex_digit_value a = hex_digit_value b.
Proof.
  pose (chk := fun a b : ascii =>
    implb (Ascii.eqb (fold_case_ascii a) (fold_case_ascii b)
           && is_hex_digit a)
          (is_hex_digit b && (hex_digit_value a =? hex_digit_value b))).
  assert (Hall : forall a b, chk a b = true).
  { apply forall_ascii2_spec. vm_compute. reflexivity. }
  intros Hf Ha. specialize (Hall a b). unfold chk in Hall.
  rewrite Hf, Ascii.eqb_refl, Ha in Hall. cbn in Hall.
  apply andb_prop in Hall as [Hb Hv]. split; [exact Hb | lia].
Qed.

Lemma signed_pair_value_hex (a b : ascii) :
  is_hex_digit a = true -> is_hex_digit b = true ->
  signed_pair_value a b
  = Some (hex_value (String a (String b EmptyString))).
Proof.
  intros Ha Hb. unfold signed_pair_value, hex_value. rewrite Ha, Hb.
  cbn [hex_value_from]. f_equal; lia.
Qed.

(** ** [convertToOBIS] on a segment of twelve characters *)

Lemma length_12_inv (s : string) :
  String.length s = 12%nat ->
  exists c0 c1 c2 c3 c4 c5 c6 c7 c8 c9 c10 c11,
    s = twelve c0 c1 c2 c3 c4 c5 c6 c7 c8 c9 c10 c11.
Proof.
  intros Hlen.
  do 12 (destruct s as [|? s]; [discriminate Hlen|]).
  destruct s; [|discriminate Hlen].
  unfold twelve. repeat eexists.
Qed.

Lemma convertToOBIS_twelve (name : string)
    (c0 c1 c2 c3 c4 c5 c6 c7 c8 c9 c10 c11 : ascii) :
  segment name = twelve c0 c1 c2 c3 c4 c5 c6 c7 c8 c9 c10 c11 ->
  convertToOBIS name = convert_pairs c4 c5 c6 c7 c8 c9.
Proof.
  intros Hseg. unfold convertToOBIS, convert_pairs. rewrite Hseg.
  unfold twelve. cbn [String.length Nat.eqb negb substring].
  rewrite !ParseInt_pair.
  destruct (signed_pair_value c4 c5); [|reflexivity].
  destruct (signed_pair_value c6 c7); [|reflexivity].
  destruct (signed_pair_value c8 c9); reflexivity.
Qed.

Lemma convertToOBIS_length (name : string) :
  String.length (segment name) <> 12%nat ->
  convertToOBIS name
  = Err (Errorf ("unexpected logical name: " ++ name)).
Proof.
  intros Hlen. unfold convertToOBIS.
  destruct (Nat.eqb_spec (String.length (segment name)) 12) as [E|E];
    [contradiction | reflexivity].
Qed.

Lemma fold_case_length (s : string) :
  String.length (fold_case s) = String.length s.
Proof. induction s as [|c s IH]; cbn; [reflexivity | by rewrite IH]. Qed.

(** C1. For every logical name whose segment before the first '.' is exactly
    12 hexadecimal characters, [convertToOBIS] succeeds with the decimal
    string "C.D.E" of the hex pairs at characters 4-6, 6-8 and 8-10; and any
    name whose segment differs from it only in the case of its letters
    converts to the same result. *)
Theorem convertToOBIS_hex12 (name : string) :
  String.length (segment name) = 12%nat ->
  all_hex (segment name) = true ->
  convertToOBIS name = Ok (obis_of_segment (segment name)) /\
  forall name' : string,
    fold_case (segment name') = fold_case (segment name) ->
    convertToOBIS name' = convertToOBIS name.
Proof.
  intros Hlen Hhex.
  destruct (length_12_inv _ Hlen)
    as (c0 & c1 & c2 & c3 & c4 & c5 & c6 & c7 & c8 & c9 & c10 & c11 & Hseg).
  rewrite Hseg in Hhex. unfold twelve in Hhex. cbn [all_hex] in Hhex.
  repeat (apply andb_prop in Hhex as [? Hhex]).
  assert (Hconv : convertToOBIS name = Ok (obis_of_segment (segment name))).
  { rewrite (convertToOBIS_twelve _ _ _ _ _ _ _ _ _ _ _ _ _ Hseg).
    unfold convert_pairs. rewrite !signed_pair_value_hex by assumption.
    rewrite Hseg. reflexivity. }
  split; [exact Hconv|].
  intros name' Hfold.
  assert (Hlen' : String.length (segment name') = 12%nat).
  { rewrite <- fold_case_length, Hfold, fold_case_length. exact Hlen. }
  destruct (length_12_inv _ Hlen')
    as (d0 & d1 & d2 & d3 & d4 & d5 & d6 & d7 & d8 & d9 & d10 & d11 & Hseg').
  rewrite Hseg, Hseg' in Hfold. unfold twelve in Hfold.
  cbn [fold_case] in Hfold.
  injection Hfold as F0 F1 F2 F3 F4 F5 F6 F7 F8 F9 F10 F11.
  rewrite (convertToOBIS_twelve _ _ _ _ _ _ _ _ _ _ _ _ _ Hseg').
  rewrite (convertToOBIS_twelve _ _ _ _ _ _ _ _ _ _ _ _ _ Hseg).
  symmetry in F4, F5, F6, F7, F8, F9.
  destruct (fold_case_hex _ _ F4) as [? E4]; [assumption|].
  destruct (fold_case_hex _ _ F5) as [? E5]; [assumption|].
  destruct (fold_case_hex _ _ F6) as [? E6]; [assumption|].
  destruct (fold_case_hex _ _ F7) as [? E7]; [assumption|].
  destruct (fold_case_hex _ _ F8) as [? E8]; [assumption|].
  destruct (fold_case_hex _ _ F9) as [? E9]; [assumption|].
  unfold convert_pairs. rewrite !signed_pair_value_hex by assumption.
  unfold hex_value. cbn [hex_value_from].
  rewrite E4, E5, E6, E7, E8, E9. reflexivity.
Qed.

(** C8. [convertToOBIS] reads only characters 4 through 9 of the segment:
    two logical names whose segments both have length 12 and agree on those
    six characters convert to the same result, value or error alike. *)
Theorem convertToOBIS_reads_4_to_9 (name1 name2 : string) :
  String.length (segment name1) = 12%nat ->
  String.length (segment name2) = 12%nat ->
  substring 4 6 (segment name1) = substring 4 6 (segment name2) ->
  convertToOBIS name1 = convertToOBIS name2.
Proof.
  intros Hlen1 Hlen2 Hsub.
  destruct (length_12_inv _ Hlen1)
    as (c0 & c1 & c2 & c3 & c4 & c5 & c6 & c7 & c8 & c9 & c10 & c11 & Hseg1).
  destruct (length_12_inv _ Hlen2)
    as (d0 & d1 & d2 & d3 & d4 & d5 & d6 & d7 & d8 & d9 & d10 & d11 & Hseg2).
  rewrite Hseg1, Hseg2 in Hsub. unfold twelve in Hsub.
  cbn [substring] in Hsub. injection Hsub as -> -> -> -> -> ->.
  rewrite (convertToOBIS_twelve _ _ _ _ _ _ _ _ _ _ _ _ _ Hseg1).
  rewrite (convertToOBIS_twelve _ _ _ _ _ _ _ _ _ _ _ _ _ Hseg2).
  reflexivity.
Qed.

(** ** Scaling by a small power of ten *)

Lemma Pow_10_exact (n : Z) :
  0 <= n <= 22 -> math.Pow 10 n = math.float64_of_int (10 ^ n).
Proof.
  intros Hn.
  assert (Hall : Forall (fun k : nat =>
                   math.Pow 10 (Z.of_nat k)
                   = math.float64_of_int (10 ^ Z.of_nat k)) (seq 0 23)).
  { cbn [seq].
    repeat (apply Forall_cons; split; [vm_compute; reflexivity|]).
    constructor. }
  rewrite Forall_forall in Hall.
  rewrite <- (Z2Nat.id n) by lia. apply Hall.
  apply elem_of_seq. lia.
Qed.

Lemma Pow_10_inverse (n : Z) :
  -22 <= n < 0 ->
  math.Pow 10 n = (1 / math.float64_of_int (10 ^ (- n)))%float.
Proof.
  intros Hn.
  assert (Hall : Forall (fun k : nat =>
                   math.Pow 10 (- Z.of_nat k)
                   = (1 / math.float64_of_int (10 ^ Z.of_nat k))%float)
                   (seq 1 22)).
  { cbn [seq].
    repeat (apply Forall_cons; split; [vm_compute; reflexivity|]).
    constructor. }
  rewrite Forall_forall in Hall.
  replace n with (- Z.of_nat (Z.to_nat (- n))) at 1 by lia.
  rewrite <- (Z2Nat.id (- n)) at 2 by lia. apply Hall.
  apply elem_of_seq. lia.
Qed.

Section MeterValues.
Context `{Gateway} `{Decoders}.

Lemma known_units_cases (u : Z) :
  u ∈ known_units <-> u = 27 \/ u = 30 \/ u = 33 \/ u = 35 \/ u = 44.
Proof.
  unfold known_units. rewrite !elem_of_cons, elem_of_nil. tauto.
Qed.

(** One iteration of the loop inserts the entry of the item, if any. *)
Lemma GetMeterValues_item_entry (values : gmap string float)
    (item : MeterValue) :
  GetMeterValues_item values item =
    match entry item with
    | Some (obis, v) => <[obis := v]> values
    | None => values
    end.
Proof.
  unfold GetMeterValues_item, entry, converted.
  destruct (convertToOBIS (LogicalName item)) as [obis|]; [|reflexivity].
  destruct (ParseFloat (Value item)) as [raw|]; [|reflexivity].
  case_bool_decide as Hu.
  - apply known_units_cases in Hu.
    destruct Hu as [-> | [-> | [-> | [-> | ->]]]]; reflexivity.
  - rewrite known_units_cases in Hu.
    destruct (Z.eqb_spec (Unit item) 27); [exfalso; tauto|].
    destruct (Z.eqb_spec (Unit item) 30); [exfalso; tauto|].
    destruct (Z.eqb_spec (Unit item) 33); [exfalso; tauto|].
    destruct (Z.eqb_spec (Unit item) 35); [exfalso; tauto|].
    destruct (Z.eqb_spec (Unit item) 44); [exfalso; tauto|].
    reflexivity.
Qed.

Lemma GetMeterValues_fold_app (l1 l2 : list MeterValue)
    (values : gmap string float) :
  fold_left GetMeterValues_item (l1 ++ l2) values
  = fold_left GetMeterValues_item l2 (fold_left GetMeterValues_item l1 values).
Proof. apply fold_left_app. Qed.


(** A key that no item of the list contributes keeps its binding. *)
Lemma GetMeterValues_fold_other (l : list MeterValue)
    (values : gmap string float) (k : string) :
  (forall it v, it ∈ l -> entry it <> Some (k, v)) ->
  fold_left GetMeterValues_item l values !! k = values !! k.
Proof.
  revert values. induction l as [|it l IH]; intros values Hl; [reflexivity|].
  cbn [fold_left]. rewrite IH.
  - rewrite GetMeterValues_item_entry.
    destruct (entry it) as [[k' v']|] eqn:He; [|reflexivity].
    apply lookup_insert_ne. intros ->.
    apply (Hl it v'); [left | exact He].
  - intros it' v Hin. apply Hl. by right.
Qed.

(** Every binding of the result comes from the map the loop started with or
    from the entry of an item. *)
Lemma GetMeterValues_fold_lookup (l : list MeterValue)
    (values : gmap string float) (k : string) (v : float) :
  fold_left GetMeterValues_item l values !! k = Some v ->
  values !! k = Some v \/ exists it, it ∈ l /\ entry it = Some (k, v).
Proof.
  revert values. induction l as [|it l IH]; intros values Hk; [by left|].
  cbn [fold_left] in Hk. apply IH in Hk as [Hk | (it' & Hin & He)].
  - rewrite GetMeterValues_item_entry in Hk.
    destruct (entry it) as [[k' v']|] eqn:He; [|by left].
    destruct (decide (k' = k)) as [->|Hne].
    + rewrite lookup_insert_eq in Hk. injection Hk as ->.
      right. exists it. split; [left | exact He].
    + rewrite lookup_insert_ne in Hk by exact Hne. by left.
  - right. exists it'. split; [by right | exact He].
Qed.

(** The loop ends with an empty map exactly when it started with one and no
    item has an entry. *)
Lemma GetMeterValues_fold_empty (l : list MeterValue)
    (values : gmap string float) :
  fold_left GetMeterValues_item l values = ∅
  <-> values = ∅ /\ forall it, it ∈ l -> entry it = None.
Proof.
  revert values. induction l as [|it l IH]; intros values; cbn [fold_left].
  - split; [intros ->; split; [done | by intros it ?%elem_of_nil] | by intros []].
  - rewrite IH, GetMeterValues_item_entry. split.
    + intros [Hv Hl]. destruct (entry it) as [[k v]|] eqn:He.
      * by apply insert_non_empty in Hv.
      * split; [exact Hv|]. intros it' [->|Hin]%elem_of_cons; auto.
    + intros [-> Hl]. rewrite (Hl it) by left. split; [done|].
      intros it' Hin. apply Hl. by right.
Qed.




(** C3. [GetMeterValues] returns, under the OBIS key of a surviving item
    that no later item overrides, the value raw times ten to the scaler,
    divided by 1000 for unit code 30 and unchanged for unit code 27.  The
    factor is the integer 10^scaler itself for a scaler from 0 to 22 and
    the float nearest to its inverse for a scaler from -22 to -1.  With
    unit 30, scaler 2 and raw value "150" the returned value is 15.0; with
    unit 27, scaler 0 and raw value "2345" it is 2345.0. *)
Theorem GetMeterValues_conversion (c : Client) (reading : MeterReading)
    (l1 l2 : list MeterValue) (item : MeterValue) (obis : string)
    (raw : float) :
  meterID c <> EmptyString ->
  getJSON Unmarshal_reading (reading_uri c) = Ok reading ->
  Values reading = l1 ++ item :: l2 ->
  convertToOBIS (LogicalName item) = Ok obis ->
  ParseFloat (Value item) = Ok raw ->
  (forall it w, it ∈ l2 -> entry it <> Some (obis, w)) ->
  Unit item = 27 \/ Unit item = 30 ->
  exists values,
    GetMeterValues c = Ok values
    /\ (Unit item = 27 ->
        values !! obis = Some (raw * math.Pow 10 (Scaler item))%float)
    /\ (Unit item = 30 ->
        values !! obis
        = Some (raw * math.Pow 10 (Scaler item) / 1000)%float)
    /\ (0 <= Scaler item <= 22 ->
        math.Pow 10 (Scaler item)
        = math.float64_of_int (10 ^ Scaler item))
    /\ (-22 <= Scaler item < 0 ->
        math.Pow 10 (Scaler item)
        = (1 / math.float64_of_int (10 ^ (- Scaler item)))%float)
    /\ (Unit item = 30 -> Scaler item = 2 -> Value item = "150"%string ->
        raw = 150%float -> values !! obis = Some 15%float)
    /\ (Unit item = 27 -> Scaler item = 0 -> Value item = "2345"%string ->
        raw = 2345%float -> values !! obis = Some 2345%float).
Proof.
  intros Hid Hget Hvals Hname Hraw Hlast Hunit.
  assert (He : entry item
               = Some (obis, converted raw (Scaler item) (Unit item))).
  { unfold entry. rewrite Hname, Hraw.
    rewrite bool_decide_eq_true_2; [reflexivity|].
    apply known_units_cases. tauto. }
  assert (Hk : GetMeterValues_loop (Values reading) !! obis
               = Some (converted raw (Scaler item) (Unit item))).
  { rewrite Hvals. unfold GetMeterValues_loop.
    rewrite GetMeterValues_fold_app. cbn [fold_left].
    rewrite (GetMeterValues_fold_other l2 _ obis Hlast).
    rewrite GetMeterValues_item_entry, He. apply lookup_insert_eq. }
  exists (GetMeterValues_loop (Values reading)). split.
  { unfold GetMeterValues.
    destruct (String.eqb_spec (meterID c) "") as [E|_]; [contradiction|].
    fold (reading_uri c). rewrite Hget. cbv zeta.
    destruct (Nat.eqb_spec (size (GetMeterValues_loop (Values reading))) 0)
      as [Hsz|Hsz]; [|reflexivity].
    apply map_size_empty_iff in Hsz. rewrite Hsz, lookup_empty in Hk.
    discriminate. }
  rewrite Hk. unfold converted.
  split; [by intros ->|]. split; [by intros ->|].
  split; [apply Pow_10_exact|]. split; [apply Pow_10_inverse|]. split.
  - intros -> -> _ ->. cbn [Z.eqb Pos.eqb].
    by replace (150 * math.Pow 10 2 / 1000)%float with 15%float
      by (vm_compute; reflexivity).
  - intros -> -> _ ->. cbn [Z.eqb Pos.eqb].
    by replace (2345 * math.Pow 10 0)%float with 2345%float
      by (vm_compute; reflexivity).
Qed.


(** C5. When the fetch and the top-level decode succeed, [GetMeterValues]
    fails exactly when no item survives per-item validation, and then with
    the NoDataError; in particular it fails so when every item has an
    unknown unit code, and it returns a non-empty mapping as soon as one
    item survives, whatever the other items are. *)
Theorem GetMeterValues_NoDataError (c : Client) (reading : MeterReading) :
  meterID c <> EmptyString ->
  getJSON Unmarshal_reading (reading_uri c) = Ok reading ->
  (GetMeterValues c = Err NoDataError
   <-> forall it, it ∈ Values reading -> entry it = None)
  /\ (is_Ok (GetMeterValues c) = false
      <-> forall it, it ∈ Values reading -> entry it = None)
  /\ ((forall it, it ∈ Values reading -> Unit it ∉ known_units) ->
      GetMeterValues c = Err NoDataError)
  /\ ((exists it, it ∈ Values reading /\ entry it <> None) ->
      exists values, GetMeterValues c = Ok values /\ values <> ∅).
Proof.
  intros Hid Hget. unfold GetMeterValues.
  destruct (String.eqb_spec (meterID c) "") as [E|_]; [contradiction|].
  fold (reading_uri c). rewrite Hget. cbv zeta.
  pose proof (GetMeterValues_fold_empty (Values reading) ∅) as Hempty.
  fold (GetMeterValues_loop (Values reading)) in Hempty.
  assert (Hnone : (forall it, it ∈ Values reading -> entry it = None)
                  <-> GetMeterValues_loop (Values reading) = ∅).
  { rewrite Hempty. intuition. }
  destruct (Nat.eqb_spec (size (GetMeterValues_loop (Values reading))) 0)
    as [Hsz|Hsz].
  - apply map_size_empty_iff in Hsz.
    split; [|split; [|split]].
    + rewrite Hnone. done.
    + rewrite Hnone. done.
    + done.
    + intros (it & Hin & He). exfalso. apply He. by apply Hnone.
  - assert (Hne : GetMeterValues_loop (Values reading) <> ∅).
    { intros E. apply Hsz. by rewrite E, map_size_empty. }
    split; [|split; [|split]].
    + rewrite Hnone. split; [discriminate | done].
    + rewrite Hnone. cbn [is_Ok]. split; [discriminate | done].
    + intros Hall. exfalso. apply Hne, Hnone. intros it Hin.
      unfold entry.
      destruct (convertToOBIS (LogicalName it)); [|reflexivity].
      destruct (ParseFloat (Value it)); [|reflexivity].
      rewrite bool_decide_eq_false_2; [reflexivity | by apply Hall].
    + intros _. eexists. split; [reflexivity | exact Hne].
Qed.

(** C9. When several items of a document survive with the same OBIS key, the
    result mapping holds under that key the converted value of the last of
    them in document order, and the call succeeds. *)
Theorem GetMeterValues_last_wins (c : Client) (reading : MeterReading)
    (l1 l2 : list MeterValue) (item : MeterValue) (obis : string)
    (v : float) :
  meterID c <> EmptyString ->
  getJSON Unmarshal_reading (reading_uri c) = Ok reading ->
  Values reading = l1 ++ item :: l2 ->
  entry item = Some (obis, v) ->
  (forall it w, it ∈ l2 -> entry it <> Some (obis, w)) ->
  exists values,
    GetMeterValues c = Ok values /\ values !! obis = Some v.
Proof.
  intros Hid Hget Hvals He Hlast.
  assert (Hk : GetMeterValues_loop (Values reading) !! obis = Some v).
  { rewrite Hvals. unfold GetMeterValues_loop.
    rewrite GetMeterValues_fold_app. cbn [fold_left].
    rewrite (GetMeterValues_fold_other l2 _ obis Hlast).
    rewrite GetMeterValues_item_entry, He. apply lookup_insert_eq. }
  unfold GetMeterValues.
  destruct (String.eqb_spec (meterID c) "") as [E|_]; [contradiction|].
  fold (reading_uri c). rewrite Hget. cbv zeta.
  destruct (Nat.eqb_spec (size (GetMeterValues_loop (Values reading))) 0)
    as [Hsz|Hsz].
  - apply map_size_empty_iff in Hsz. rewrite Hsz, lookup_empty in Hk.
    discriminate.
  - eexists. split; [reflexivity | exact Hk].
Qed.

End MeterValues.

Section Discovery.
Context `{Gateway} `{Decoders}.

Lemma DiscoverMeterID_loop_cons (c : Client) (id : string)
    (rest : list string) :
  DiscoverMeterID_loop c (id :: rest) =
    match first_domain c id with
    | Some d => (with_meterID c d, None)
    | None => DiscoverMeterID_loop c rest
    end.
Proof.
  cbn [DiscoverMeterID_loop]. unfold first_domain. fold (contract_uri c id).
  destruct (getJSON Unmarshal_contract (contract_uri c id)) as [contract|];
    [|reflexivity].
  destruct (SensorDomains contract) as [|d ds]; reflexivity.
Qed.

Lemma DiscoverMeterID_loop_skip (c : Client) (pre rest : list string) :
  (forall id, id ∈ pre -> first_domain c id = None) ->
  DiscoverMeterID_loop c (pre ++ rest) = DiscoverMeterID_loop c rest.
Proof.
  induction pre as [|id pre IH]; intros Hpre; [reflexivity|].
  rewrite <- app_comm_cons, DiscoverMeterID_loop_cons, (Hpre id) by left.
  apply IH. intros id' Hin. apply Hpre. by right.
Qed.

Lemma DiscoverMeterID_loop_fails (c : Client) (contracts : list string) :
  snd (DiscoverMeterID_loop c contracts) <> None ->
  forall id, id ∈ contracts -> first_domain c id = None.
Proof.
  induction contracts as [|id0 l IH]; intros Hfail id Hin.
  - by apply elem_of_nil in Hin.
  - rewrite DiscoverMeterID_loop_cons in Hfail.
    destruct (first_domain c id0) as [d|] eqn:E; [by cbn in Hfail|].
    apply elem_of_cons in Hin as [->|Hin]; [exact E | by apply IH].
Qed.

(** C6. [DiscoverMeterID] goes through the fetched contract identifiers in
    order, skipping each contract whose detail fetch fails or lists no
    sensor domain; the first sensor domain of the first other contract
    becomes the meter identity; it fails, with the DiscoveryError and the
    client unchanged, only when no contract lists a sensor domain.  Over
    contracts A (none), B (X, Y), C (Z) the meter identity is X. *)
Theorem DiscoverMeterID_first_eligible (c : Client)
    (contracts : list string) :
  getJSON Unmarshal_contracts (uri c ++ "/json/metering/derived") = Ok contracts ->
  (forall pre id post d,
      contracts = pre ++ id :: post ->
      (forall id', id' ∈ pre -> first_domain c id' = None) ->
      first_domain c id = Some d ->
      DiscoverMeterID c = (with_meterID c d, None))
  /\ ((forall id, id ∈ contracts -> first_domain c id = None) ->
      DiscoverMeterID c = (c, Some DiscoveryError))
  /\ (snd (DiscoverMeterID c) <> None ->
      forall id, id ∈ contracts -> first_domain c id = None)
  /\ (forall a b d,
        contracts = [a; b; d] ->
        getJSON Unmarshal_contract (contract_uri c a)
        = Ok {| SensorDomains := [] |} ->
        getJSON Unmarshal_contract (contract_uri c b)
        = Ok {| SensorDomains := ["X"; "Y"]%string |} ->
        getJSON Unmarshal_contract (contract_uri c d)
        = Ok {| SensorDomains := ["Z"]%string |} ->
        DiscoverMeterID c = (with_meterID c "X", None)).
Proof.
  intros Hget. unfold DiscoverMeterID. rewrite Hget.
  split; [|split; [|split]].
  - intros pre id post d -> Hpre Hid.
    rewrite (DiscoverMeterID_loop_skip _ _ _ Hpre).
    by rewrite DiscoverMeterID_loop_cons, Hid.
  - intros Hnone.
    rewrite <- (app_nil_r contracts).
    by rewrite (DiscoverMeterID_loop_skip _ _ _ Hnone).
  - apply DiscoverMeterID_loop_fails.
  - intros a b d -> Ha Hb Hd.
    rewrite !DiscoverMeterID_loop_cons. unfold first_domain.
    by rewrite Ha, Hb.
Qed.

End Discovery.

(** ** [defaultScheme] *)

Lemma defaultScheme_prefixed (uri scheme : string) :
  strings.HasPrefix uri "http://" = true
  \/ strings.HasPrefix uri "https://" = true ->
  defaultScheme uri scheme = uri.
Proof.
  intros [Hp|Hp]; unfold defaultScheme; rewrite Hp; cbn;
    [reflexivity | by rewrite andb_false_r].
Qed.

(** C10, as amended. [defaultScheme] leaves a uri that starts with "http://"
    or "https://" unchanged, whatever the default scheme; when the default
    scheme is "http" or "https", its output starts with one of the two
    prefixes and applying it twice equals applying it once. *)
Theorem defaultScheme_idempotent (uri scheme : string) :
  (strings.HasPrefix uri "http://" = true
   \/ strings.HasPrefix uri "https://" = true ->
   defaultScheme uri scheme = uri)
  /\ (scheme = "http"%string \/ scheme = "https"%string ->
      (strings.HasPrefix (defaultScheme uri scheme) "http://" = true
       \/ strings.HasPrefix (defaultScheme uri scheme) "https://" = true)
      /\ defaultScheme (defaultScheme uri scheme) scheme
         = defaultScheme uri scheme).
Proof.
  split; [apply defaultScheme_prefixed|].
  intros Hs.
  assert (Hpre : strings.HasPrefix (defaultScheme uri scheme) "http://" = true
                 \/ strings.HasPrefix (defaultScheme uri scheme) "https://"
                    = true).
  { unfold defaultScheme.
    destruct (strings.HasPrefix uri "http://") eqn:E1; [by left|].
    destruct (strings.HasPrefix uri "https://") eqn:E2; [by right|].
    cbn [negb andb]. destruct Hs as [-> | ->]; [left | right]; reflexivity. }
  split; [exact Hpre|]. by apply defaultScheme_prefixed.
Qed.

Module digest_facts.
Import digest.

Section RoundTrip.
Context {Srv : Type} `{Collaborators Srv}.

(** Membership of an event in an explicit trace, case by case. *)
Ltac trace_cases Hin :=
  repeat (apply elem_of_cons in Hin as [Hin|Hin];
          [try discriminate Hin|]);
  try (by apply elem_of_nil in Hin).

Lemma challenge_of_status (reply : Reply) (ch : Challenge) :
  challenge_of reply = Some ch -> status reply = StatusUnauthorized.
Proof.
  unfold challenge_of.
  destruct (Z.eqb_spec (status reply) StatusUnauthorized); [done | discriminate].
Qed.

(** Steps 2 to 4 send once, or twice with the resend last; the answer to the
    resend is returned as it is. *)
Lemma challengeRoundTrip_trace (t : Transport) (srv : Srv) (req : Request) :
  let '(_, _, evs, r) := challengeRoundTrip t srv req in
  (exists a1, evs = [(Unauthenticated, req, a1)])
  \/ (exists a1 rq, evs = [(Unauthenticated, req, a1); (Resend, rq, r)]).
Proof.
  unfold challengeRoundTrip.
  destruct (send srv req) as [srv1 [reply1|e]]; [|left; eauto].
  destruct (challenge_of reply1) as [ch|]; [|left; eauto].
  destruct (send srv1 _) as [srv2 r2]. right. eauto.
Qed.

(** Against a server that always challenges, steps 2 to 4 end with the
    resend, whose 401 is the result. *)
Lemma challengeRoundTrip_rejected (used : list string) (t : Transport)
    (srv : Srv) (req : Request) :
  always_challenges used ->
  let '(_, _, evs, r) := challengeRoundTrip t srv req in
  exists a1 rq reply,
    evs = [(Unauthenticated, req, a1); (Resend, rq, Ok reply)]
    /\ r = Ok reply /\ status reply = StatusUnauthorized.
Proof.
  intros Hsrv. unfold challengeRoundTrip.
  destruct (Hsrv srv req) as (srv1 & reply1 & ch1 & -> & -> & _).
  destruct (Hsrv srv1
              (authorize (credentials t)
                 {| challenge := ch1; nonceCount := 1 |}
                 (clientNonce (attempts t)) req))
    as (srv2 & reply2 & ch2 & -> & Hch2 & _).
  do 3 eexists. split; [reflexivity|]. split; [reflexivity|].
  by apply challenge_of_status in Hch2.
Qed.

(** C7. One round trip through the digest transport resends at most once and
    sends at most three times; a resend is the last thing it does, and what
    the server answers to it is returned as it is, a rejection included.
    Against a server that answers every request with a 401 carrying a fresh
    nonce, the transport resends exactly once and returns that 401. *)
Theorem RoundTrip_single_retry (t : Transport) (srv : Srv) (req : Request) :
  let '(_, _, evs, r) := RoundTrip t srv req in
  (resends evs <= 1)%nat
  /\ (length evs <= 3)%nat
  /\ (forall rq ans,
        (Resend, rq, ans) ∈ evs ->
        last evs = Some (Resend, rq, ans) /\ r = ans)
  /\ (always_challenges (cached_nonces t req) ->
      resends evs = 1%nat
      /\ exists rq reply,
           last evs = Some (Resend, rq, Ok reply)
           /\ r = Ok reply /\ status reply = StatusUnauthorized).
Proof.
  unfold RoundTrip, cached_nonces.
  destruct (cache t !! authority req) as [cs|].
  - set (cs1 := {| challenge := challenge cs;
                   nonceCount := (nonceCount cs + 1) mod 2 ^ 32 |}).
    set (req1 := authorize (credentials t) cs1 (clientNonce (attempts t)) req).
    destruct (send srv req1) as [srv1 r1] eqn:Hsend1.
    set (t2 := {| credentials := _; cache := delete _ _; attempts := _ |}).
    match goal with |- context [if ?b then _ else _] => destruct b eqn:Hfresh end.
    + pose proof (challengeRoundTrip_trace t2 srv1 req) as Hshape.
      pose proof (challengeRoundTrip_rejected [nonce (challenge cs)] t2 srv1 req)
        as Hrej.
      destruct (challengeRoundTrip t2 srv1 req) as [[[t3 srv3] evs] r].
      split; [|split; [|split]].
      * destruct Hshape as [(a1 & ->) | (a1 & rq & ->)]; cbn; lia.
      * destruct Hshape as [(a1 & ->) | (a1 & rq & ->)]; cbn; lia.
      * intros rq ans Hin.
        destruct Hshape as [(a1 & ->) | (a1 & rq' & ->)].
        -- trace_cases Hin.
        -- trace_cases Hin. by injection Hin as -> ->.
      * intros Hsrv. destruct (Hrej Hsrv) as (a1 & rq & reply & -> & -> & Hst).
        split; [reflexivity|]. by exists rq, reply.
    + split; [|split; [|split]].
      * cbn. lia.
      * cbn. lia.
      * intros rq ans Hin. trace_cases Hin.
      * intros Hsrv. exfalso.
        destruct (Hsrv srv req1) as (s' & reply & ch & Hs & Hch & Hst & Hn).
        rewrite Hs in Hsend1. injection Hsend1 as <- <-.
        rewrite Hch, Hst in Hfresh. cbn [orb] in Hfresh.
        apply negb_false_iff, String.eqb_eq in Hfresh.
        apply Hn. rewrite Hfresh. by left.
  - pose proof (challengeRoundTrip_trace t srv req) as Hshape.
    pose proof (challengeRoundTrip_rejected [] t srv req) as Hrej.
    destruct (challengeRoundTrip t srv req) as [[[t3 srv3] evs] r].
    split; [|split; [|split]].
    + destruct Hshape as [(a1 & ->) | (a1 & rq & ->)]; cbn; lia.
    + destruct Hshape as [(a1 & ->) | (a1 & rq & ->)]; cbn; lia.
    + intros rq ans Hin.
      destruct Hshape as [(a1 & ->) | (a1 & rq' & ->)].
      * trace_cases Hin.
      * trace_cases Hin. by injection Hin as -> ->.
    + intros Hsrv. destruct (Hrej Hsrv) as (a1 & rq & reply & -> & -> & Hst).
      split; [reflexivity|]. by exists rq, reply.
Qed.

End RoundTrip.
End digest_facts.

(** ** Cutting a string at a byte *)

Lemma substring_0_0 (s : string) : substring 0 0 s = EmptyString.
Proof. by destruct s. Qed.

Lemma substring_0_length (s : string) : substring 0 (String.length s) s = s.
Proof. induction s as [|a s IH]; cbn; [done | by rewrite IH]. Qed.

Lemma append_nil_l (s : string) : (EmptyString ++ s)%string = s.
Proof. reflexivity. Qed.

Lemma append_cons (a : ascii) (h s : string) :
  (String a h ++ s)%string = String a (h ++ s).
Proof. reflexivity. Qed.

Lemma cut_at_IndexByte (c : ascii) (s : string) :
  match strings.IndexByte s c with
  | Some i => substring 0 i s
  | None => s
  end = take_until c s.
Proof.
  induction s as [|a s IH]; cbn [strings.IndexByte take_until]; [done|].
  destruct (Ascii.eqb a c); [done|].
  destruct (strings.IndexByte s c) as [i|]; cbn [substring]; f_equal; exact IH.
Qed.

Lemma take_until_free (c : ascii) (s : string) :
  occurs c (take_until c s) = false.
Proof.
  induction s as [|a s IH]; cbn; [done|].
  destruct (Ascii.eqb a c) eqn:E; cbn; [done | by rewrite E].
Qed.

Lemma take_until_id (c : ascii) (s : string) :
  occurs c s = false -> take_until c s = s.
Proof.
  induction s as [|a s IH]; cbn; [done|].
  intros [-> Hs]%orb_false_elim. by rewrite IH.
Qed.

Lemma take_until_app (c : ascii) (h rest : string) :
  occurs c h = false ->
  take_until c (h ++ String c rest)%string = h.
Proof.
  induction h as [|a h IH]; rewrite ?append_nil_l, ?append_cons; cbn.
  - by rewrite Ascii.eqb_refl.
  - intros [-> Hh]%orb_false_elim. by rewrite IH.
Qed.

Lemma take_until_split (c : ascii) (s : string) :
  s = take_until c s
  \/ exists rest, s = (take_until c s ++ String c rest)%string.
Proof.
  induction s as [|a s IH]; cbn; [by left|].
  destruct (Ascii.eqb_spec a c) as [->|Hne].
  - right. by exists s.
  - destruct IH as [IH | [rest IH]].
    + left. by rewrite <- IH.
    + right. exists rest. rewrite append_cons. by rewrite <- IH.
Qed.

Lemma take_until_keeps_free (c d : ascii) (s : string) :
  occurs d s = false -> occurs d (take_until c s) = false.
Proof.
  induction s as [|a s IH]; cbn; [done|].
  intros [Ha Hs]%orb_false_elim.
  destruct (Ascii.eqb a c); cbn; [done|]. by rewrite Ha, IH.
Qed.

Lemma take_until_prefix (c : ascii) (s : string) :
  strings.HasPrefix s (take_until c s) = true.
Proof.
  induction s as [|a s IH]; cbn; [done|].
  destruct (Ascii.eqb a c); cbn; [done|]. by rewrite Ascii.eqb_refl, IH.
Qed.

Lemma HasPrefix_trans (s t u : string) :
  strings.HasPrefix s t = true -> strings.HasPrefix t u = true ->
  strings.HasPrefix s u = true.
Proof.
  revert s t. induction u as [|c u IH]; intros s t Hst Htu; [done|].
  destruct t as [|b t]; [done|]. destruct s as [|a s]; [done|].
  cbn in *. apply andb_prop in Hst as [Hba Hst].
  apply andb_prop in Htu as [Hcb Htu].
  apply Ascii.eqb_eq in Hba as ->. rewrite Hcb. cbn. by apply (IH s t).
Qed.

Lemma segment_take_until (name : string) :
  segment name = take_until "." name.
Proof.
  unfold segment, strings.SplitN2. rewrite <- cut_at_IndexByte.
  by destruct (strings.IndexByte name ".").
Qed.

(** X1. The segment [convertToOBIS] works on is the part of the logical name
    before its first '.': it contains no '.', and the name is either the
    segment itself or the segment followed by '.' and a rest. *)
Theorem segment_before_first_dot (name : string) :
  occurs "." (segment name) = false
  /\ (name = segment name
      \/ exists rest, name = (segment name ++ String "." rest)%string).
Proof.
  rewrite segment_take_until. split.
  - apply take_until_free.
  - apply take_until_split.
Qed.

(** X2. What follows the first '.' of a logical name does not matter to
    the key: a dot-free segment followed by '.' and any rest converts to the
    same OBIS key as the segment alone, and fails when the segment alone
    fails. *)
Theorem convertToOBIS_ignores_suffix (seg rest : string) :
  occurs "." seg = false ->
  (forall obis,
      convertToOBIS (seg ++ String "." rest) = Ok obis
      <-> convertToOBIS seg = Ok obis)
  /\ is_Ok (convertToOBIS (seg ++ String "." rest))
     = is_Ok (convertToOBIS seg).
Proof.
  intros Hfree.
  assert (Hs1 : segment (seg ++ String "." rest) = seg).
  { rewrite segment_take_until. by apply take_until_app. }
  assert (Hs2 : segment seg = seg).
  { rewrite segment_take_until. by apply take_until_id. }
  unfold convertToOBIS. rewrite Hs1, Hs2.
  destruct (negb (String.length seg =? 12)%nat).
  - split; [|done]. intros obis. split; discriminate.
  - destruct (strconv.ParseInt (substring 4 2 seg) 16 64) as [c [e|]];
      [split; [intros; split; congruence | done]|].
    destruct (strconv.ParseInt (substring 6 2 seg) 16 64) as [d [e|]];
      [split; [intros; split; congruence | done]|].
    destruct (strconv.ParseInt (substring 8 2 seg) 16 64) as [e' [e|]];
      split; done.
Qed.

(** ** [parseURIHost] *)

Lemma HasPrefix_app (pre s : string) :
  strings.HasPrefix (pre ++ s) pre = true.
Proof.
  induction pre as [|a pre IH]; [done|].
  rewrite append_cons. cbn. by rewrite Ascii.eqb_refl, IH.
Qed.

Lemma TrimPrefix_app (pre s : string) :
  strings.TrimPrefix (pre ++ s) pre = s.
Proof.
  unfold strings.TrimPrefix. rewrite HasPrefix_app.
  induction pre as [|a pre IH].
  - rewrite append_nil_l. cbn [String.length].
    by rewrite Nat.sub_0_r, substring_0_length.
  - rewrite append_cons. cbn [String.length substring Nat.sub]. exact IH.
Qed.

Lemma TrimPrefix_without (s pre : string) :
  strings.HasPrefix s pre = false -> strings.TrimPrefix s pre = s.
Proof. intros Hp. unfold strings.TrimPrefix. by rewrite Hp. Qed.

(** [parseURIHost] keeps, of the uri without its scheme, what comes before
    the first '/' and, of that, what comes before the first ':'. *)
Lemma parseURIHost_take_until (uri : string) :
  parseURIHost uri =
    let host := take_until ":" (take_until "/" (strip_scheme uri)) in
    if String.eqb host "" then Err (Errorf "invalid uri") else Ok host.
Proof.
  unfold parseURIHost, strip_scheme. cbv zeta.
  by rewrite !cut_at_IndexByte.
Qed.

Lemma parseURIHost_Ok_free (uri host : string) :
  parseURIHost uri = Ok host ->
  host <> EmptyString /\ occurs "/" host = false /\ occurs ":" host = false.
Proof.
  rewrite parseURIHost_take_until. cbv zeta.
  destruct (String.eqb_spec
              (take_until ":" (take_until "/" (strip_scheme uri))) "")
    as [E|E]; [discriminate|].
  intros [= <-]. split; [exact E|]. split.
  - apply take_until_keeps_free, take_until_free.
  - apply take_until_free.
Qed.

Lemma parseURIHost_Err_invalid (uri : string) (e : error) :
  parseURIHost uri = Err e -> e = Errorf "invalid uri".
Proof.
  rewrite parseURIHost_take_until. cbv zeta.
  destruct (String.eqb _ _); [by intros [= <-] | discriminate].
Qed.

(** X3. A host returned by [parseURIHost] is never empty, contains neither
    '/' nor ':', and is the beginning of the uri without its scheme. *)
Theorem parseURIHost_host (uri host : string) :
  parseURIHost uri = Ok host ->
  host <> EmptyString
  /\ occurs "/" host = false
  /\ occurs ":" host = false
  /\ strings.HasPrefix (strip_scheme uri) host = true.
Proof.
  rewrite parseURIHost_take_until. cbv zeta.
  destruct (String.eqb_spec
              (take_until ":" (take_until "/" (strip_scheme uri))) "")
    as [E|E]; [discriminate|].
  intros [= <-]. split; [exact E|]. split; [|split].
  - apply take_until_keeps_free, take_until_free.
  - apply take_until_free.
  - eapply HasPrefix_trans; apply take_until_prefix.
Qed.

(** X4. [parseURIHost] fails exactly when nothing is left before the first
    '/' or ':' of the uri without its scheme, that is when that rest is
    empty or begins with '/' or ':'; its only error is "invalid uri". *)
Theorem parseURIHost_invalid (uri : string) :
  (parseURIHost uri = Err (Errorf "invalid uri")
   <-> strip_scheme uri = EmptyString
       \/ strings.HasPrefix (strip_scheme uri) "/" = true
       \/ strings.HasPrefix (strip_scheme uri) ":" = true)
  /\ (forall e, parseURIHost uri = Err e -> e = Errorf "invalid uri").
Proof.
  rewrite parseURIHost_take_until. cbv zeta.
  destruct (strip_scheme uri) as [|a s].
  - cbn. split; [|by intros e [= <-]]. split; [by left | done].
  - cbn [take_until strings.HasPrefix].
    destruct (Ascii.eqb_spec a "/") as [->|Hs].
    + cbn. split; [|by intros e [= <-]]. split; [by right; left | done].
    + cbn [take_until].
      destruct (Ascii.eqb_spec a ":") as [->|Hc].
      * cbn. split; [|by intros e [= <-]]. split; [by right; right | done].
      * cbn [String.eqb]. split; [|discriminate].
        split; [discriminate|].
        intros [? | [Hp | Hp]]; [discriminate | |];
          apply andb_prop in Hp as [Hp _]; apply Ascii.eqb_eq in Hp;
          congruence.
Qed.

(** X5. Round trip: for a non-empty host without '/' and ':', followed by
    nothing or by a port or a path, [parseURIHost] of "http://" + host +
    rest is the host; so it is after "https://", and without a scheme,
    provided host + rest does not itself begin with a scheme that
    [parseURIHost] would strip as well. *)
Theorem parseURIHost_roundtrip (host rest : string) :
  host <> EmptyString ->
  occurs "/" host = false ->
  occurs ":" host = false ->
  rest = EmptyString
  \/ strings.HasPrefix rest "/" = true
  \/ strings.HasPrefix rest ":" = true ->
  parseURIHost ("http://" ++ host ++ rest) = Ok host
  /\ (strings.HasPrefix (host ++ rest) "http://" = false ->
      parseURIHost ("https://" ++ host ++ rest) = Ok host)
  /\ (strings.HasPrefix (host ++ rest) "http://" = false ->
      strings.HasPrefix (host ++ rest) "https://" = false ->
      parseURIHost (host ++ rest) = Ok host).
Proof.
  intros Hne Hslash Hcolon Hrest.
  assert (Hcut : take_until ":" (take_until "/" (host ++ rest)) = host).
  { destruct Hrest as [-> | [Hp | Hp]].
    - assert (E : (host ++ "")%string = host).
      { clear. induction host as [|a h IH]; [done|].
        by rewrite append_cons, IH. }
      rewrite E, (take_until_id "/" host Hslash).
      exact (take_until_id ":" host Hcolon).
    - destruct rest as [|b r]; [discriminate|].
      cbn [strings.HasPrefix] in Hp. apply andb_prop in Hp as [Hp _].
      apply Ascii.eqb_eq in Hp as <-.
      rewrite (take_until_app "/" host r Hslash).
      exact (take_until_id ":" host Hcolon).
    - destruct rest as [|b r]; [discriminate|].
      cbn [strings.HasPrefix] in Hp. apply andb_prop in Hp as [Hp _].
      apply Ascii.eqb_eq in Hp as <-.
      assert (Hpre : take_until "/" (host ++ String ":" r)
                     = (host ++ String ":" (take_until "/" r))%string).
      { clear -Hslash. induction host as [|a h IH].
        - by rewrite !append_nil_l.
        - rewrite !append_cons. cbn [take_until occurs] in *.
          apply orb_false_elim in Hslash as [-> Hh]. by rewrite IH. }
      rewrite Hpre. by apply take_until_app. }
  assert (Hres : forall uri, strip_scheme uri = (host ++ rest)%string ->
                             parseURIHost uri = Ok host).
  { intros uri Hs. rewrite parseURIHost_take_until, Hs, Hcut. cbv zeta.
    by destruct (String.eqb_spec host ""). }
  split; [|split].
  - apply Hres. unfold strip_scheme.
    rewrite (TrimPrefix_without ("http://" ++ host ++ rest) "https://")
      by (by rewrite !append_cons).
    apply TrimPrefix_app.
  - intros Hh. apply Hres. unfold strip_scheme.
    rewrite TrimPrefix_app. by apply TrimPrefix_without.
  - intros Hh Hhs. apply Hres. unfold strip_scheme.
    rewrite (TrimPrefix_without _ _ Hhs). exact (TrimPrefix_without _ _ Hh).
Qed.

(** ** The components of an OBIS key *)

Lemma signed_pair_value_bounds (a b : ascii) (v : Z) :
  signed_pair_value a b = Some v ->
  -15 <= v <= 255 /\ (is_hex_digit a = true -> 0 <= v).
Proof.
  pose (chk := fun a b : ascii =>
    match signed_pair_value a b with
    | Some v => (-15 <=? v) && (v <=? 255) && implb (is_hex_digit a) (0 <=? v)
    | None => true
    end).
  assert (Hall : forall a b, chk a b = true).
  { apply forall_ascii2_spec. vm_compute. reflexivity. }
  intros Hv. specialize (Hall a b). unfold chk in Hall. rewrite Hv in Hall.
  apply andb_prop in Hall as [[Hlo Hhi]%andb_prop Himp].
  split; [lia|]. intros Ha. rewrite Ha in Himp. cbn in Himp. lia.
Qed.

(** X6. A key returned by [convertToOBIS] is "C.D.E" for the numbers C, D, E
    that the pairs at characters 4-5, 6-7 and 8-9 of the segment denote;
    each lies between -15 and 255, and is not negative when the first
    character of its pair is a hexadecimal digit. *)
Theorem convertToOBIS_components (name obis : string) :
  convertToOBIS name = Ok obis ->
  exists c d e,
    obis = Sprintf_obis c d e
    /\ strconv.ParseInt (substring 4 2 (segment name)) 16 64 = (c, None)
    /\ strconv.ParseInt (substring 6 2 (segment name)) 16 64 = (d, None)
    /\ strconv.ParseInt (substring 8 2 (segment name)) 16 64 = (e, None)
    /\ -15 <= c <= 255 /\ -15 <= d <= 255 /\ -15 <= e <= 255
    /\ (all_hex (substring 4 6 (segment name)) = true ->
        0 <= c /\ 0 <= d /\ 0 <= e).
Proof.
  intros Hok.
  destruct (decide (String.length (segment name) = 12%nat)) as [Hlen|Hlen];
    [|by rewrite (convertToOBIS_length _ Hlen) in Hok].
  destruct (length_12_inv _ Hlen)
    as (c0 & c1 & c2 & c3 & c4 & c5 & c6 & c7 & c8 & c9 & c10 & c11 & Hseg).
  rewrite (convertToOBIS_twelve _ _ _ _ _ _ _ _ _ _ _ _ _ Hseg) in Hok.
  rewrite Hseg. unfold twelve. cbn [substring]. rewrite !ParseInt_pair.
  unfold convert_pairs in Hok.
  destruct (signed_pair_value c4 c5) as [c|] eqn:Ec; [|discriminate].
  destruct (signed_pair_value c6 c7) as [d|] eqn:Ed; [|discriminate].
  destruct (signed_pair_value c8 c9) as [e|] eqn:Ee; [|discriminate].
  injection Hok as <-.
  destruct (signed_pair_value_bounds _ _ _ Ec) as [Bc Pc].
  destruct (signed_pair_value_bounds _ _ _ Ed) as [Bd Pd].
  destruct (signed_pair_value_bounds _ _ _ Ee) as [Be Pe].
  exists c, d, e. repeat (split; [done|]).
  cbn [all_hex]. intros Hhex.
  repeat (apply andb_prop in Hhex as [? Hhex]). auto.
Qed.

(** ** The key format is unambiguous *)

Lemma NilEmpty_string_of_uint_no_dot (d : Decimal.uint) :
  occurs "." (NilEmpty.string_of_uint d) = false.
Proof. induction d; cbn; done. Qed.

Lemma FormatInt_no_dot (z : Z) : occurs "." (strconv.FormatInt z) = false.
Proof.
  unfold strconv.FormatInt, NilZero.string_of_int, NilZero.string_of_uint.
  destruct (Z.to_int z) as [d|d]; destruct d; cbn;
    try done; apply NilEmpty_string_of_uint_no_dot.
Qed.

Lemma FormatInt_inj (z z' : Z) :
  strconv.FormatInt z = strconv.FormatInt z' -> z = z'.
Proof.
  unfold strconv.FormatInt. intros Heq.
  assert (Hnn : forall x, Z.to_int x <> Decimal.Pos Decimal.Nil
                          /\ Z.to_int x <> Decimal.Neg Decimal.Nil).
  { intros [|p|p]; cbn; split; try discriminate;
      intros [= E]; by apply (DecimalPos.Unsigned.to_uint_nonnil p). }
  assert (Hint : Z.to_int z = Z.to_int z').
  { destruct (Hnn z) as [H1 H2], (Hnn z') as [H1' H2'].
    pose proof (NilZero.isi _ H1 H2) as E. rewrite Heq in E.
    rewrite (NilZero.isi _ H1' H2') in E. by injection E. }
  by rewrite <- (DecimalZ.of_to z), Hint, DecimalZ.of_to.
Qed.

Lemma append_inv_head (a x y : string) :
  (a ++ x)%string = (a ++ y)%string -> x = y.
Proof.
  induction a as [|c a IH]; [done|].
  rewrite !append_cons. intros [= E]. by apply IH.
Qed.

Lemma Sprintf_obis_dots (c d e : Z) :
  Sprintf_obis c d e
  = (strconv.FormatInt c
     ++ String "." (strconv.FormatInt d
                    ++ String "." (strconv.FormatInt e)))%string.
Proof. reflexivity. Qed.

(** X7. The key format is unambiguous: two triples of numbers are rendered
    as the same "C.D.E" string only if they are the same triple, so two
    readings with different OBIS addresses never share a key of the result
    mapping. *)
Theorem Sprintf_obis_inj (c d e c' d' e' : Z) :
  Sprintf_obis c d e = Sprintf_obis c' d' e' ->
  c = c' /\ d = d' /\ e = e'.
Proof.
  rewrite !Sprintf_obis_dots. intros Heq.
  assert (Hc : c = c').
  { apply FormatInt_inj.
    apply (f_equal (take_until ".")) in Heq.
    by rewrite !take_until_app in Heq by apply FormatInt_no_dot. }
  subst c'. apply append_inv_head in Heq. injection Heq as Heq.
  assert (Hd : d = d').
  { apply FormatInt_inj.
    apply (f_equal (take_until ".")) in Heq.
    by rewrite !take_until_app in Heq by apply FormatInt_no_dot. }
  subst d'. apply append_inv_head in Heq. injection Heq as Heq.
  by apply FormatInt_inj in Heq.
Qed.

(** X8. The errors of [convertToOBIS]: a segment that is not 12 bytes long
    gives "unexpected logical name: " followed by the whole logical name;
    otherwise the error is the syntax error of [ParseInt] on the first of
    the pairs at 4-5, 6-7, 8-9 that is not acceptable.  A range error never
    occurs. *)
Theorem convertToOBIS_errors (name : string) (err : error) :
  convertToOBIS name = Err err ->
  (String.length (segment name) <> 12%nat
   /\ err = Errorf ("unexpected logical name: " ++ name))
  \/ (String.length (segment name) = 12%nat
      /\ exists i : nat,
           (i = 4 \/ i = 6 \/ i = 8)%nat
           /\ pair_ok (segment name) i = false
           /\ err = NumError "ParseInt" (substring i 2 (segment name))
                      ErrSyntax
           /\ forall j : nat,
                (j = 4 \/ j = 6 \/ j = 8)%nat -> (j < i)%nat ->
                pair_ok (segment name) j = true).
Proof.
  intros Herr.
  destruct (decide (String.length (segment name) = 12%nat)) as [Hlen|Hlen].
  - right. split; [exact Hlen|].
    destruct (length_12_inv _ Hlen)
      as (c0 & c1 & c2 & c3 & c4 & c5 & c6 & c7 & c8 & c9 & c10 & c11 & Hseg).
    rewrite (convertToOBIS_twelve _ _ _ _ _ _ _ _ _ _ _ _ _ Hseg) in Herr.
    rewrite Hseg. unfold convert_pairs in Herr. unfold pair_ok, twelve.
    destruct (signed_pair_value c4 c5) as [c|] eqn:Ec.
    + destruct (signed_pair_value c6 c7) as [d|] eqn:Ed.
      * destruct (signed_pair_value c8 c9) as [e|] eqn:Ee; [discriminate|].
        injection Herr as <-. exists 8%nat. cbn [String.get substring].
        rewrite Ee. do 3 (split; [auto|]).
        intros j [-> | [-> | ->]] Hj; cbn [String.get];
          rewrite ?Ec, ?Ed; (done || lia).
      * injection Herr as <-. exists 6%nat. cbn [String.get substring].
        rewrite Ed. do 3 (split; [auto|]).
        intros j [-> | [-> | ->]] Hj; cbn [String.get];
          rewrite ?Ec; (done || lia).
    + injection Herr as <-. exists 4%nat. cbn [String.get substring].
      rewrite Ec. do 3 (split; [auto|]).
      intros j [-> | [-> | ->]] Hj; lia.
  - left. split; [exact Hlen|].
    rewrite (convertToOBIS_length _ Hlen) in Herr. by injection Herr.
Qed.

(** ** The result mapping as a whole *)

Section ResultMap.
Context `{Gateway} `{Decoders}.

Lemma omap_entry_cons (it : MeterValue) (items : list MeterValue) :
  omap entry (it :: items)
  = match entry it with
    | Some e => e :: omap entry items
    | None => omap entry items
    end.
Proof. reflexivity. Qed.

(** The loop adds to the map it starts with the entries of the items, a
    later entry overriding an earlier one with the same key. *)
Lemma GetMeterValues_fold_list_to_map (items : list MeterValue)
    (values : gmap string float) :
  fold_left GetMeterValues_item items values
  = list_to_map (reverse (omap entry items)) ∪ values.
Proof.
  revert values. induction items as [|it items IH]; intros values.
  - cbn. by rewrite (left_id ∅ (∪)).
  - cbn [fold_left]. rewrite IH, GetMeterValues_item_entry.
    rewrite omap_entry_cons.
    destruct (entry it) as [[k v]|]; [|reflexivity].
    rewrite reverse_cons, list_to_map_app. cbn [list_to_map foldr].
    rewrite insert_empty, <- (assoc_L (∪)).
    by rewrite <- insert_union_singleton_l.
Qed.

(** X9. The result mapping of the loop is the list of the entries of the
    surviving items read as a map, a later entry overriding an earlier one
    with the same key; a document made of two parts gives the mapping of the
    second part completed by that of the first. *)
Theorem GetMeterValues_loop_list_to_map (items : list MeterValue) :
  GetMeterValues_loop items = list_to_map (reverse (omap entry items))
  /\ forall more,
       GetMeterValues_loop (items ++ more)
       = GetMeterValues_loop more ∪ GetMeterValues_loop items.
Proof.
  unfold GetMeterValues_loop. split.
  - rewrite GetMeterValues_fold_list_to_map. by rewrite (right_id ∅ (∪)).
  - intros more. rewrite fold_left_app.
    rewrite (GetMeterValues_fold_list_to_map more (fold_left _ items ∅)).
    by rewrite (GetMeterValues_fold_list_to_map more ∅), (right_id ∅ (∪)).
Qed.

(** X10. When the surviving items of a document have pairwise different
    keys, the order of the items does not matter: any permutation of the
    document gives the same mapping. *)
Theorem GetMeterValues_loop_permutation (items items' : list MeterValue) :
  NoDup ((omap entry items).*1) ->
  items ≡ₚ items' ->
  GetMeterValues_loop items = GetMeterValues_loop items'.
Proof.
  intros Hnd Hperm. unfold GetMeterValues_loop.
  rewrite !GetMeterValues_fold_list_to_map. f_equal.
  apply list_to_map_proper.
  - by rewrite reverse_Permutation.
  - by rewrite !reverse_Permutation, Hperm.
Qed.

Lemma GetMeterValues_fold_size (items : list MeterValue)
    (values : gmap string float) :
  (size (fold_left GetMeterValues_item items values)
   <= size values + length items)%nat.
Proof.
  revert values. induction items as [|it items IH]; intros values.
  - cbn. lia.
  - cbn [fold_left length]. etransitivity; [apply IH|].
    rewrite GetMeterValues_item_entry.
    destruct (entry it) as [[k v]|]; [|lia].
    rewrite map_size_insert. destruct (values !! k); cbn; lia.
Qed.

(** X11. The keys of the result mapping are exactly the keys of the
    surviving items, so no surviving reading is lost; and the mapping has
    at most as many entries as the document has items. *)
Theorem GetMeterValues_loop_keys (items : list MeterValue) :
  (forall obis,
      is_Some (GetMeterValues_loop items !! obis)
      <-> exists it v, it ∈ items /\ entry it = Some (obis, v))
  /\ (size (GetMeterValues_loop items) <= length items)%nat.
Proof.
  split.
  - intros obis. split.
    + intros [v Hv].
      apply GetMeterValues_fold_lookup in Hv as [Hv | (it & Hin & He)];
        [by rewrite lookup_empty in Hv|].
      by exists it, v.
    + intros (it & v & Hin & He).
      unfold GetMeterValues_loop.
      rewrite GetMeterValues_fold_list_to_map, (right_id ∅ (∪)).
      apply not_eq_None_Some. rewrite <- not_elem_of_list_to_map.
      intros Hnot. apply Hnot.
      rewrite fmap_reverse, elem_of_reverse.
      apply list_elem_of_fmap. exists (obis, v). split; [done|].
      apply list_elem_of_omap. by exists it.
  - pose proof (GetMeterValues_fold_size items ∅) as Hsz.
    rewrite map_size_empty in Hsz. exact Hsz.
Qed.

End ResultMap.

Section Outcomes.
Context `{Gateway} `{Decoders}.

(** X12. What [GetMeterValues] can return.  A mapping it returns is never
    empty, it is the mapping of the loop over the fetched document, and each
    of its keys is "C.D.E" for numbers between -15 and 255.  An error is
    "meter ID not set" when the client has no meter ID, whatever the
    gateway; else the error of the fetch, wrapped; else the no-data error
    of a document without a surviving item. *)
Theorem GetMeterValues_outcomes (c : Client) :
  match GetMeterValues c with
  | Ok values =>
      meterID c <> EmptyString
      /\ values <> ∅
      /\ (exists reading,
            getJSON Unmarshal_reading (reading_uri c) = Ok reading
            /\ values = GetMeterValues_loop (Values reading))
      /\ (forall obis v,
            values !! obis = Some v ->
            exists x y z,
              obis = Sprintf_obis x y z
              /\ -15 <= x <= 255 /\ -15 <= y <= 255 /\ -15 <= z <= 255)
  | Err e =>
      (meterID c = EmptyString /\ e = Errorf "meter ID not set")
      \/ (meterID c <> EmptyString
          /\ exists cause,
               getJSON Unmarshal_reading (reading_uri c) = Err cause
               /\ e = Wrapf "failed to get meter values: " cause)
      \/ (meterID c <> EmptyString
          /\ e = NoDataError
          /\ exists reading,
               getJSON Unmarshal_reading (reading_uri c) = Ok reading
               /\ GetMeterValues_loop (Values reading) = ∅)
  end.
Proof.
  unfold GetMeterValues.
  destruct (String.eqb_spec (meterID c) "") as [E|E]; [by left|].
  fold (reading_uri c).
  destruct (getJSON Unmarshal_reading (reading_uri c)) as [reading|cause];
    [|right; left; eauto].
  cbv zeta.
  destruct (Nat.eqb_spec (size (GetMeterValues_loop (Values reading))) 0)
    as [Hsz|Hsz].
  - apply map_size_empty_iff in Hsz. right. right. eauto.
  - split; [exact E|]. split; [by apply map_size_non_empty_iff|].
    split; [eauto|].
    intros obis v Hv.
    apply GetMeterValues_fold_lookup in Hv as [Hv | (it & Hin & He)];
      [by rewrite lookup_empty in Hv|].
    unfold entry in He.
    destruct (convertToOBIS (LogicalName it)) as [k|] eqn:Hk; [|discriminate].
    destruct (ParseFloat (Value it)); [|discriminate].
    case_bool_decide; [|discriminate]. injection He as -> _.
    destruct (decide (String.length (segment (LogicalName it)) = 12%nat))
      as [Hlen|Hlen]; [|by rewrite (convertToOBIS_length _ Hlen) in Hk].
    destruct (length_12_inv _ Hlen)
      as (c0 & c1 & c2 & c3 & c4 & c5 & c6 & c7 & c8 & c9 & c10 & c11 & Hseg).
    rewrite (convertToOBIS_twelve _ _ _ _ _ _ _ _ _ _ _ _ _ Hseg) in Hk.
    unfold convert_pairs in Hk.
    destruct (signed_pair_value c4 c5) as [x|] eqn:Ex; [|discriminate].
    destruct (signed_pair_value c6 c7) as [y|] eqn:Ey; [|discriminate].
    destruct (signed_pair_value c8 c9) as [z|] eqn:Ez; [|discriminate].
    injection Hk as <-.
    exists x, y, z. split; [done|].
    split; [apply (signed_pair_value_bounds _ _ _ Ex)|].
    split; [apply (signed_pair_value_bounds _ _ _ Ey)|].
    apply (signed_pair_value_bounds _ _ _ Ez).
Qed.

Lemma getJSON_status {T : Type} (Unmarshal : string -> result T)
    (uri : string) (resp : Response) :
  Get uri = Ok resp -> StatusCode resp <> StatusOK ->
  getJSON Unmarshal uri = Err (StatusError resp).
Proof.
  intros Hget Hst. unfold getJSON. rewrite Hget.
  by destruct (Z.eqb_spec (StatusCode resp) StatusOK).
Qed.

(** X13. An answer whose status is not 200 is never decoded: whatever its
    body and whatever the decoders, [GetMeterValues] fails with the wrapped
    "unexpected status code" error, [DiscoverMeterID] fails so on the
    contract list and leaves the client as it is, and a contract whose
    detail is answered so is skipped. *)
Theorem non_200_is_never_decoded (c : Client) (resp : Response) :
  StatusCode resp <> StatusOK ->
  (meterID c <> EmptyString -> Get (reading_uri c) = Ok resp ->
   GetMeterValues c
   = Err (Wrapf "failed to get meter values: " (StatusError resp)))
  /\ (Get (uri c ++ "/json/metering/derived") = Ok resp ->
      DiscoverMeterID c
      = (c, Some (Wrapf "failed to get contracts: " (StatusError resp))))
  /\ (forall id rest,
        Get (contract_uri c id) = Ok resp ->
        DiscoverMeterID_loop c (id :: rest) = DiscoverMeterID_loop c rest).
Proof.
  intros Hst. split; [|split].
  - intros Hid Hget. unfold GetMeterValues.
    destruct (String.eqb_spec (meterID c) "") as [E|_]; [contradiction|].
    fold (reading_uri c). by rewrite (getJSON_status _ _ _ Hget Hst).
  - intros Hget. unfold DiscoverMeterID.
    by rewrite (getJSON_status _ _ _ Hget Hst).
  - intros id rest Hget. rewrite DiscoverMeterID_loop_cons.
    unfold first_domain. by rewrite (getJSON_status _ _ _ Hget Hst).
Qed.

End Outcomes.

(** ** Discovery as a whole *)

Section DiscoveryFacts.
Context `{Gateway} `{Decoders}.

(** The loop of [DiscoverMeterID] returns the first of the first sensor
    domains that the contracts yield, in order. *)
Lemma DiscoverMeterID_loop_head (c : Client) (contracts : list string) :
  DiscoverMeterID_loop c contracts =
    match head (omap (first_domain c) contracts) with
    | Some d => (with_meterID c d, None)
    | None => (c, Some DiscoveryError)
    end.
Proof.
  induction contracts as [|id l IH]; [reflexivity|].
  rewrite DiscoverMeterID_loop_cons.
  change (omap (first_domain c) (id :: l))
    with (match first_domain c id with
          | Some d => d :: omap (first_domain c) l
          | None => omap (first_domain c) l
          end).
  destruct (first_domain c id); [reflexivity | exact IH].
Qed.

Lemma first_domain_uri (c c' : Client) (id : string) :
  uri c' = uri c -> first_domain c' id = first_domain c id.
Proof.
  intros Hu. unfold first_domain, contract_uri. by rewrite Hu.
Qed.

Lemma omap_first_domain_uri (c c' : Client) (l : list string) :
  uri c' = uri c -> omap (first_domain c') l = omap (first_domain c) l.
Proof.
  intros Hu. induction l as [|id l IH]; [reflexivity|].
  change (omap (first_domain c') (id :: l))
    with (match first_domain c' id with
          | Some d => d :: omap (first_domain c') l
          | None => omap (first_domain c') l
          end).
  change (omap (first_domain c) (id :: l))
    with (match first_domain c id with
          | Some d => d :: omap (first_domain c) l
          | None => omap (first_domain c) l
          end).
  by rewrite (first_domain_uri _ _ _ Hu), IH.
Qed.

Lemma head_omap_split {A B : Type} (f : A -> option B) (l : list A) (d : B) :
  head (omap f l) = Some d ->
  exists pre x post,
    l = pre ++ x :: post /\ (forall y, y ∈ pre -> f y = None) /\ f x = Some d.
Proof.
  induction l as [|a l IH]; [discriminate|].
  change (omap f (a :: l))
    with (match f a with Some b => b :: omap f l | None => omap f l end).
  destruct (f a) as [b|] eqn:Ea.
  - intros [= ->]. exists [], a, l. split; [done|]. split; [|done].
    by intros y ?%elem_of_nil.
  - intros (pre & x & post & -> & Hpre & Hx)%IH.
    exists (a :: pre), x, post. split; [done|]. split; [|done].
    intros y [->|Hy]%elem_of_cons; auto.
Qed.

Lemma DiscoverMeterID_cases (c : Client) :
  (exists e, DiscoverMeterID c = (c, Some e))
  \/ (exists d, DiscoverMeterID c = (with_meterID c d, None)).
Proof.
  unfold DiscoverMeterID.
  destruct (getJSON Unmarshal_contracts (uri c ++ "/json/metering/derived"))
    as [contracts|cause]; [|left; eauto].
  rewrite DiscoverMeterID_loop_head.
  destruct (head (omap (first_domain c) contracts)); [right | left]; eauto.
Qed.

(** X14. A discovery that fails leaves the client as it was, meter ID
    included; its error is either the wrapped error of the fetch of the
    contract list or the error that no contract has sensor domains.
    Discovery never changes the uri of the client. *)
Theorem DiscoverMeterID_failure (c : Client) :
  uri (fst (DiscoverMeterID c)) = uri c
  /\ forall e,
       snd (DiscoverMeterID c) = Some e ->
       fst (DiscoverMeterID c) = c
       /\ ((exists cause,
              getJSON Unmarshal_contracts (uri c ++ "/json/metering/derived")
              = Err cause
              /\ e = Wrapf "failed to get contracts: " cause)
           \/ (exists contracts,
                 getJSON Unmarshal_contracts
                   (uri c ++ "/json/metering/derived") = Ok contracts
                 /\ (forall id, id ∈ contracts -> first_domain c id = None)
                 /\ e = DiscoveryError)).
Proof.
  unfold DiscoverMeterID.
  destruct (getJSON Unmarshal_contracts (uri c ++ "/json/metering/derived"))
    as [contracts|cause] eqn:Hget.
  - pose proof (DiscoverMeterID_loop_fails c contracts) as Hfails.
    rewrite DiscoverMeterID_loop_head in *.
    destruct (head (omap (first_domain c) contracts)) as [d|].
    + split; [reflexivity | discriminate].
    + split; [reflexivity|]. intros e [= <-]. split; [reflexivity|].
      right. exists contracts. split; [reflexivity|]. split; [|reflexivity].
      by apply Hfails.
  - split; [reflexivity|]. intros e [= <-]. split; [reflexivity|].
    left. by exists cause.
Qed.

(** X15. The outcome of a discovery depends on the client only through its
    uri, not on the meter ID it holds; so running [DiscoverMeterID] again on
    the client it returned gives the same client and the same error. *)
Theorem DiscoverMeterID_idempotent (c : Client) :
  (forall c',
      uri c' = uri c ->
      snd (DiscoverMeterID c') = snd (DiscoverMeterID c)
      /\ (snd (DiscoverMeterID c) = None ->
          fst (DiscoverMeterID c') = fst (DiscoverMeterID c)))
  /\ DiscoverMeterID (fst (DiscoverMeterID c)) = DiscoverMeterID c.
Proof.
  assert (Hdep : forall c',
    uri c' = uri c ->
    snd (DiscoverMeterID c') = snd (DiscoverMeterID c)
    /\ (snd (DiscoverMeterID c) = None ->
        fst (DiscoverMeterID c') = fst (DiscoverMeterID c))).
  { intros c' Hu. unfold DiscoverMeterID. rewrite Hu.
    destruct (getJSON Unmarshal_contracts (uri c ++ "/json/metering/derived"))
      as [contracts|cause]; [|split; [reflexivity | discriminate]].
    rewrite !DiscoverMeterID_loop_head, (omap_first_domain_uri _ _ _ Hu).
    destruct (head (omap (first_domain c) contracts)) as [d|];
      [|split; [reflexivity | discriminate]].
    split; [reflexivity|]. intros _. cbn. unfold with_meterID. by rewrite Hu. }
  split; [exact Hdep|].
  destruct (DiscoverMeterID_cases c) as [[e Hd] | [d Hd]]; rewrite Hd.
  - exact Hd.
  - cbn [fst]. destruct (Hdep (with_meterID c d) eq_refl) as [Hsnd Hfst].
    rewrite Hd in Hsnd, Hfst. cbn [fst snd] in Hsnd, Hfst.
    destruct (DiscoverMeterID (with_meterID c d)) as [c2 e2].
    cbn [fst snd] in Hsnd, Hfst. by rewrite Hsnd, Hfst.
Qed.

(** X16. A discovery that succeeds has fetched the contract list and found
    in it a first contract whose detail lists a sensor domain, every
    contract before it failing or listing none; the client it returns holds
    the first sensor domain of that contract and the uri it had. *)
Theorem DiscoverMeterID_success (c c' : Client) :
  DiscoverMeterID c = (c', None) ->
  exists contracts pre id post d,
    getJSON Unmarshal_contracts (uri c ++ "/json/metering/derived")
    = Ok contracts
    /\ contracts = pre ++ id :: post
    /\ (forall id', id' ∈ pre -> first_domain c id' = None)
    /\ first_domain c id = Some d
    /\ c' = with_meterID c d.
Proof.
  unfold DiscoverMeterID.
  destruct (getJSON Unmarshal_contracts (uri c ++ "/json/metering/derived"))
    as [contracts|cause]; [|discriminate].
  rewrite DiscoverMeterID_loop_head.
  destruct (head (omap (first_domain c) contracts)) as [d|] eqn:Hhead;
    [|discriminate].
  intros [= <-].
  destruct (head_omap_split _ _ _ Hhead) as (pre & id & post & -> & Hpre & Hid).
  by exists (pre ++ id :: post), pre, id, post, d.
Qed.

End DiscoveryFacts.

(** ** [NewClient] *)

Section Construction.
Context `{Network} `{Decoders}.

Lemma defaultScheme_has_scheme (uri : string) :
  strings.HasPrefix (defaultScheme uri "https") "http://" = true
  \/ strings.HasPrefix (defaultScheme uri "https") "https://" = true.
Proof.
  unfold defaultScheme.
  destruct (strings.HasPrefix uri "http://") eqn:E1; [by left|].
  destruct (strings.HasPrefix uri "https://") eqn:E2; [by right|].
  right. reflexivity.
Qed.

(** X17. A client returned by [NewClient] was built from a non-empty uri,
    user and password; its uri is the given one with "https://" in front
    unless it began with "http://" or "https://"; its HTTP client is built
    for a host that is never empty: the host header when one is given,
    else the host derived from the uri, which contains neither '/' nor ':'.
    A given meter ID is kept, and then [GetMeterValues] never reports that
    the meter ID is not set; without one the client is the outcome of a
    successful discovery. *)
Theorem NewClient_success (uri0 user password meterID0 hostHeader : string)
    (g : Gateway) (c : Client) :
  NewClient uri0 user password meterID0 hostHeader = Ok (g, c) ->
  uri0 <> EmptyString /\ user <> EmptyString /\ password <> EmptyString
  /\ uri c = defaultScheme uri0 "https"
  /\ (strings.HasPrefix (uri c) "http://" = true
      \/ strings.HasPrefix (uri c) "https://" = true)
  /\ (exists host,
        g = Dial user password host
        /\ host <> EmptyString
        /\ (hostHeader <> EmptyString -> host = hostHeader)
        /\ (hostHeader = EmptyString ->
            parseURIHost (defaultScheme uri0 "https") = Ok host
            /\ occurs "/" host = false /\ occurs ":" host = false))
  /\ (meterID0 <> EmptyString ->
      MeterID c = meterID0
      /\ @GetMeterValues g _ c <> Err (Errorf "meter ID not set"))
  /\ (meterID0 = EmptyString ->
      @DiscoverMeterID g _
        {| uri := defaultScheme uri0 "https"; meterID := EmptyString |}
      = (c, None)).
Proof.
  unfold NewClient.
  destruct (String.eqb_spec uri0 "") as [|Huri]; [discriminate|].
  destruct (String.eqb_spec user "") as [|Huser]; [discriminate|].
  destruct (String.eqb_spec password "") as [|Hpw]; [discriminate|].
  cbn [orb]. cbv zeta.
  assert (Hhost : forall host,
    (if String.eqb hostHeader ""
     then match parseURIHost (defaultScheme uri0 "https") with
          | Ok derived => Ok derived
          | Err err =>
              Err (Wrapf "host required and could not be derived: " err)
          end
     else Ok hostHeader) = Ok host ->
    host <> EmptyString
    /\ (hostHeader <> EmptyString -> host = hostHeader)
    /\ (hostHeader = EmptyString ->
        parseURIHost (defaultScheme uri0 "https") = Ok host
        /\ occurs "/" host = false /\ occurs ":" host = false)).
  { intros host. destruct (String.eqb_spec hostHeader "") as [Hh|Hh].
    - destruct (parseURIHost (defaultScheme uri0 "https")) as [d|]
        eqn:Hp; [|discriminate].
      intros [= ->]. destruct (parseURIHost_Ok_free _ _ Hp) as (? & ? & ?).
      split; [done|]. split; [done|]. done.
    - intros [= <-]. split; [done|]. split; [done|]. done. }
  destruct (if String.eqb hostHeader "" then _ else _) as [host|]
    eqn:Hd; [|discriminate].
  specialize (Hhost host eq_refl).
  unfold MeterID at 1. cbn [meterID].
  destruct (String.eqb_spec meterID0 "") as [Hm|Hm].
  - subst meterID0.
    destruct (@DiscoverMeterID (Dial user password host) _ _)
      as [c1 [e|]] eqn:Hdisc; [discriminate|].
    intros [= <- <-].
    pose proof (@DiscoverMeterID_cases (Dial user password host) _
                  {| uri := defaultScheme uri0 "https";
                     meterID := EmptyString |}) as Hcases.
    rewrite Hdisc in Hcases.
    destruct Hcases as [[e [=]] | [d [= ->]]].
    cbn [uri with_meterID].
    split; [done|]. split; [done|]. split; [done|]. split; [done|].
    split; [apply defaultScheme_has_scheme|].
    split; [by exists host|]. split; [done|]. done.
  - intros [= <- <-]. cbn [uri].
    split; [done|]. split; [done|]. split; [done|]. split; [done|].
    split; [apply defaultScheme_has_scheme|].
    split; [by exists host|].
    split; [|done]. intros _. split; [reflexivity|].
    unfold GetMeterValues. cbn [meterID].
    destruct (String.eqb_spec meterID0 "") as [|_]; [contradiction|].
    destruct (getJSON _ _); [|discriminate].
    cbv zeta. destruct (_ =? _)%nat; discriminate.
Qed.

End Construction.

Section ConstructionErrors.
Context `{Network} `{Decoders}.

(** X18. [NewClient] makes its checks in this order, and the first that
    fails decides the error: an empty uri; else an empty user or password;
    else, without a host header, a uri from which no host can be derived,
    whatever the meter ID and the gateway; else, without a meter ID, the
    error of the discovery made through the HTTP client of the given or
    derived host, wrapped.  When no check fails the client is returned: with
    the given meter ID, or as the discovery left it. *)
Theorem NewClient_errors (uri0 user password meterID0 hostHeader : string) :
  (uri0 = EmptyString ->
   NewClient uri0 user password meterID0 hostHeader
   = Err (Errorf "uri is required"))
  /\ (uri0 <> EmptyString ->
      user = EmptyString \/ password = EmptyString ->
      NewClient uri0 user password meterID0 hostHeader
      = Err (Errorf "credentials are required"))
  /\ (uri0 <> EmptyString -> user <> EmptyString ->
      password <> EmptyString -> hostHeader = EmptyString ->
      forall err,
        parseURIHost (defaultScheme uri0 "https") = Err err ->
        NewClient uri0 user password meterID0 hostHeader
        = Err (Wrapf "host required and could not be derived: " err))
  /\ (forall host,
        uri0 <> EmptyString -> user <> EmptyString ->
        password <> EmptyString ->
        (hostHeader <> EmptyString /\ host = hostHeader)
        \/ (hostHeader = EmptyString
            /\ parseURIHost (defaultScheme uri0 "https") = Ok host) ->
        (meterID0 <> EmptyString ->
         NewClient uri0 user password meterID0 hostHeader
         = Ok (Dial user password host,
               {| uri := defaultScheme uri0 "https"; meterID := meterID0 |}))
        /\ (meterID0 = EmptyString ->
            forall c' cause,
              @DiscoverMeterID (Dial user password host) _
                {| uri := defaultScheme uri0 "https";
                   meterID := EmptyString |}
              = (c', Some cause) ->
              NewClient uri0 user password meterID0 hostHeader
              = Err (Wrapf "failed to discover meter ID: " cause))
        /\ (meterID0 = EmptyString ->
            forall c',
              @DiscoverMeterID (Dial user password host) _
                {| uri := defaultScheme uri0 "https";
                   meterID := EmptyString |}
              = (c', None) ->
              NewClient uri0 user password meterID0 hostHeader
              = Ok (Dial user password host, c')))
  /\ (forall e,
        NewClient uri0 user password meterID0 hostHeader = Err e ->
        (uri0 = EmptyString /\ e = Errorf "uri is required")
        \/ (uri0 <> EmptyString
            /\ (user = EmptyString \/ password = EmptyString)
            /\ e = Errorf "credentials are required")
        \/ (uri0 <> EmptyString /\ user <> EmptyString
            /\ password <> EmptyString /\ hostHeader = EmptyString
            /\ parseURIHost (defaultScheme uri0 "https")
               = Err (Errorf "invalid uri")
            /\ e = Wrapf "host required and could not be derived: "
                     (Errorf "invalid uri"))
        \/ (uri0 <> EmptyString /\ user <> EmptyString
            /\ password <> EmptyString /\ meterID0 = EmptyString
            /\ exists host c' cause,
                 ((hostHeader <> EmptyString /\ host = hostHeader)
                  \/ (hostHeader = EmptyString
                      /\ parseURIHost (defaultScheme uri0 "https")
                         = Ok host))
                 /\ @DiscoverMeterID (Dial user password host) _
                      {| uri := defaultScheme uri0 "https";
                         meterID := EmptyString |}
                    = (c', Some cause)
                 /\ e = Wrapf "failed to discover meter ID: " cause)).
Proof.
  unfold NewClient. split; [|split; [|split; [|split]]].
  - by intros ->.
  - intros Huri Hcred.
    destruct (String.eqb_spec uri0 "") as [|_]; [contradiction|].
    by destruct Hcred as [-> | ->]; [|rewrite orb_true_r].
  - intros Huri Huser Hpw -> err Hp.
    destruct (String.eqb_spec uri0 "") as [|_]; [contradiction|].
    destruct (String.eqb_spec user "") as [|_]; [contradiction|].
    destruct (String.eqb_spec password "") as [|_]; [contradiction|].
    cbn [orb String.eqb]. cbv zeta. by rewrite Hp.
  - intros host Huri Huser Hpw Hhost.
    destruct (String.eqb_spec uri0 "") as [|_]; [contradiction|].
    destruct (String.eqb_spec user "") as [|_]; [contradiction|].
    destruct (String.eqb_spec password "") as [|_]; [contradiction|].
    cbn [orb]. cbv zeta.
    assert (Hd : (if String.eqb hostHeader ""
                  then match parseURIHost (defaultScheme uri0 "https") with
                       | Ok derived => Ok derived
                       | Err err =>
                           Err (Wrapf
                                  "host required and could not be derived: "
                                  err)
                       end
                  else Ok hostHeader) = Ok host).
    { destruct Hhost as [[Hh ->] | [-> Hp]].
      - by destruct (String.eqb_spec hostHeader "").
      - cbn [String.eqb]. by rewrite Hp. }
    rewrite Hd. unfold MeterID. cbn [meterID].
    split; [|split].
    + intros Hm. by destruct (String.eqb_spec meterID0 "").
    + intros -> c' cause Hdisc. cbn [String.eqb]. by rewrite Hdisc.
    + intros -> c' Hdisc. cbn [String.eqb]. by rewrite Hdisc.
  - intros e.
    destruct (String.eqb_spec uri0 "") as [Huri|Huri];
      [intros [= <-]; by left|].
    destruct (String.eqb_spec user "") as [Huser|Huser];
      [intros [= <-]; right; left; auto|].
    destruct (String.eqb_spec password "") as [Hpw|Hpw];
      [intros [= <-]; right; left; auto|].
    cbn [orb]. cbv zeta.
    destruct (String.eqb_spec hostHeader "") as [Hh|Hh].
    + destruct (parseURIHost (defaultScheme uri0 "https")) as [host|err]
        eqn:Hp.
      * unfold MeterID. cbn [meterID].
        destruct (String.eqb_spec meterID0 "") as [Hm|Hm]; [|discriminate].
        subst meterID0.
        destruct (@DiscoverMeterID (Dial user password host) _ _)
          as [c1 [cause|]] eqn:Hdisc; [|discriminate].
        intros [= <-]. right. right. right.
        do 4 (split; [done|]). exists host, c1, cause.
        split; [by right|]. by split.
      * intros [= <-].
        pose proof (parseURIHost_Err_invalid _ _ Hp) as ->.
        right. right. left. auto 10.
    + unfold MeterID. cbn [meterID].
      destruct (String.eqb_spec meterID0 "") as [Hm|Hm]; [|discriminate].
      subst meterID0.
      destruct (@DiscoverMeterID (Dial user password hostHeader) _ _)
        as [c1 [cause|]] eqn:Hdisc; [|discriminate].
      intros [= <-]. right. right. right.
      do 4 (split; [done|]). exists hostHeader, c1, cause.
      split; [by left|]. by split.
Qed.

End ConstructionErrors.

(** ** Scaling of a surviving item *)

Section Scaling.
Context `{Decoders}.

(** X19. For a scaler between 0 and 22 the factor [math.Pow(10, scaler)] is
    the integer 10^scaler itself, which [float64] holds exactly: a surviving
    item is stored as raw times 10^scaler for unit code 27, and as that
    divided by 1000 for unit code 30. *)
Theorem GetMeterValues_item_small_scaler (values : gmap string float)
    (name value obis : string) (scaler : Z) (raw : float) :
  convertToOBIS name = Ok obis ->
  ParseFloat value = Ok raw ->
  0 <= scaler <= 22 ->
  GetMeterValues_item values
    {| LogicalName := name; Value := value; Scaler := scaler; Unit := 27 |}
  = <[obis := (raw * math.float64_of_int (10 ^ scaler))%float]> values
  /\ GetMeterValues_item values
       {| LogicalName := name; Value := value; Scaler := scaler; Unit := 30 |}
     = <[obis := (raw * math.float64_of_int (10 ^ scaler) / 1000)%float]>
         values.
Proof.
  intros Hname Hraw Hs. unfold GetMeterValues_item.
  cbn [LogicalName Value Scaler Unit]. rewrite Hname, Hraw.
  by rewrite (Pow_10_exact _ Hs).
Qed.

End Scaling.

(** * Examples *)

Example convertToOBIS_energy :
  convertToOBIS "0100010800ff.255" = Ok "1.8.0"%string.
Proof. vm_compute. reflexivity. Qed.

Example convertToOBIS_power :
  convertToOBIS "0100100700FF" = Ok "16.7.0"%string.
Proof. vm_compute. reflexivity. Qed.

Example convertToOBIS_short :
  convertToOBIS "010001080"
  = Err (Errorf "unexpected logical name: 010001080").
Proof. vm_compute. reflexivity. Qed.

Example convertToOBIS_nonhex :
  convertToOBIS "0100zz0800ff" = Err (NumError "ParseInt" "zz" ErrSyntax).
Proof. vm_compute. reflexivity. Qed.

Example Pow_10_examples :
  math.Pow 10 0 = 1%float /\ math.Pow 10 1 = 10%float
  /\ math.Pow 10 2 = 100%float /\ math.Pow 10 3 = 1000%float
  /\ math.Pow 10 (-2) = (1 / 100)%float.
Proof. repeat split; vm_compute; reflexivity. Qed.

Lemma convertToOBIS_reads_4_to_9_witness :
  convertToOBIS "0100010800ff" = convertToOBIS "zzzz010800zz.tail".
Proof.
  apply convertToOBIS_reads_4_to_9; reflexivity.
Defined.

Lemma convertToOBIS_hex12_witness :
  convertToOBIS "0100010800ff.255" = Ok "1.8.0"%string
  /\ convertToOBIS "0100100700FF" = convertToOBIS "0100100700ff".
Proof.
  split.
  - exact (proj1 (convertToOBIS_hex12 "0100010800ff.255" eq_refl eq_refl)).
  - exact (proj2 (convertToOBIS_hex12 "0100100700ff" eq_refl eq_refl)
             "0100100700FF" eq_refl).
Defined.



Lemma GetMeterValues_conversion_witness :
  (exists values,
      @GetMeterValues stub_gateway (stub_decoders [] [] examples_reading)
        stub_client = Ok values
      /\ values !! "1.8.0"%string = Some 15%float)
  /\ (exists values,
        @GetMeterValues stub_gateway (stub_decoders [] [] examples_reading)
          stub_client = Ok values
        /\ values !! "16.7.0"%string = Some 2345%float).
Proof.
  assert (Hid : meterID stub_client <> EmptyString) by discriminate.
  assert (Hlast1 : forall it w,
            it ∈ [item_of "0100100700ff" "2345" 0 27] ->
            @entry (stub_decoders [] [] examples_reading) it
            <> Some ("1.8.0"%string, w)).
  { intros it w Hin. apply elem_of_cons in Hin as [->|Hin].
    - vm_compute. discriminate.
    - by apply elem_of_nil in Hin. }
  assert (Hlast2 : forall (it : MeterValue) (w : float),
            it ∈ [] ->
            @entry (stub_decoders [] [] examples_reading) it
            <> Some ("16.7.0"%string, w)).
  { intros it w Hin. by apply elem_of_nil in Hin. }
  split.
  - destruct (@GetMeterValues_conversion stub_gateway
                (stub_decoders [] [] examples_reading) stub_client
                examples_reading [] [item_of "0100100700ff" "2345" 0 27]
                (item_of "0100010800ff" "150" 2 30) "1.8.0" 150%float
                Hid eq_refl eq_refl eq_refl eq_refl Hlast1
                (or_intror eq_refl))
      as (values & Hok & _ & _ & _ & _ & H150 & _).
    exists values. split; [exact Hok|].
    exact (H150 eq_refl eq_refl eq_refl eq_refl).
  - destruct (@GetMeterValues_conversion stub_gateway
                (stub_decoders [] [] examples_reading) stub_client
                examples_reading [item_of "0100010800ff" "150" 2 30] []
                (item_of "0100100700ff" "2345" 0 27) "16.7.0" 2345%float
                Hid eq_refl eq_refl eq_refl eq_refl Hlast2
                (or_introl eq_refl))
      as (values & Hok & _ & _ & _ & _ & _ & H2345).
    exists values. split; [exact Hok|].
    exact (H2345 eq_refl eq_refl eq_refl eq_refl).
Defined.


Lemma GetMeterValues_NoDataError_witness :
  @GetMeterValues stub_gateway (stub_decoders [] [] unknown_units_reading)
    stub_client
  = Err NoDataError.
Proof.
  assert (Hid : meterID stub_client <> EmptyString) by discriminate.
  apply (proj1 (proj2 (proj2 (@GetMeterValues_NoDataError stub_gateway
                  (stub_decoders [] [] unknown_units_reading)
                  stub_client unknown_units_reading Hid eq_refl)))).
  intros it Hin. rewrite known_units_cases.
  apply elem_of_cons in Hin as [->|Hin]; [cbn; lia|].
  apply elem_of_cons in Hin as [->|Hin]; [cbn; lia|].
  by apply elem_of_nil in Hin.
Defined.

Lemma GetMeterValues_last_wins_witness :
  exists values,
    @GetMeterValues stub_gateway (stub_decoders [] [] duplicate_reading)
      stub_client = Ok values
    /\ values !! "1.8.0"%string = Some 2345%float.
Proof.
  assert (Hid : meterID stub_client <> EmptyString) by discriminate.
  apply (@GetMeterValues_last_wins stub_gateway
           (stub_decoders [] [] duplicate_reading) stub_client
           duplicate_reading [item_of "0100010800ff" "150" 2 30] []
           (item_of "0100010800ff.255" "2345" 0 27) "1.8.0" 2345%float
           Hid eq_refl eq_refl).
  - vm_compute. reflexivity.
  - intros it w Hin. by apply elem_of_nil in Hin.
Defined.

Lemma DiscoverMeterID_first_eligible_witness :
  @DiscoverMeterID stub_gateway abc_decoders stub_client
  = (with_meterID stub_client "X", None).
Proof.
  exact (proj2 (proj2 (proj2 (@DiscoverMeterID_first_eligible stub_gateway
                  abc_decoders stub_client ["A"; "B"; "C"]%string eq_refl)))
           "A"%string "B"%string "C"%string eq_refl eq_refl eq_refl eq_refl).
Defined.

Lemma digest_facts_RoundTrip_single_retry_witness :
  let '(_, _, evs, r) :=
    @digest.RoundTrip nat rejecting_server stub_transport 0%nat stub_request in
  digest.resends evs = 1%nat
  /\ exists rq reply,
       last evs = Some (digest.Resend, rq, Ok reply)
       /\ r = Ok reply
       /\ digest.status reply = digest.StatusUnauthorized.
Proof.
  pose proof (@digest_facts.RoundTrip_single_retry nat rejecting_server
                stub_transport 0%nat stub_request) as Hthm.
  destruct (@digest.RoundTrip nat rejecting_server stub_transport 0%nat
              stub_request) as [[[t' srv'] evs] r].
  destruct Hthm as (_ & _ & _ & Hall). apply Hall.
  intros s rq. do 3 eexists.
  split; [reflexivity|]. split; [reflexivity|]. split; [reflexivity|].
  apply not_elem_of_nil.
Defined.

Lemma defaultScheme_idempotent_witness :
  defaultScheme "192.168.33.2" "https" = "https://192.168.33.2"%string
  /\ defaultScheme (defaultScheme "192.168.33.2" "https") "https"
     = defaultScheme "192.168.33.2" "https".
Proof.
  split; [reflexivity|].
  exact (proj2 (proj2 (defaultScheme_idempotent "192.168.33.2" "https")
                  (or_intror eq_refl))).
Defined.

(** With a default scheme other than "http" or "https" the output starts
    with neither prefix and a second application adds the scheme again. *)
Lemma defaultScheme_ftp_not_idempotent :
  strings.HasPrefix (defaultScheme "host" "ftp") "http://" = false
  /\ strings.HasPrefix (defaultScheme "host" "ftp") "https://" = false
  /\ defaultScheme (defaultScheme "host" "ftp") "ftp"
     = "ftp://ftp://host"%string
  /\ defaultScheme (defaultScheme "host" "ftp") "ftp"
     <> defaultScheme "host" "ftp".
Proof. repeat split. vm_compute. discriminate. Qed.

Lemma convertToOBIS_ignores_suffix_witness :
  is_Ok (convertToOBIS "0100010800ff.255") = is_Ok (convertToOBIS "0100010800ff").
Proof.
  exact (proj2 (convertToOBIS_ignores_suffix "0100010800ff" "255" eq_refl)).
Defined.

Lemma parseURIHost_host_witness :
  "192.168.33.2"%string <> EmptyString
  /\ occurs "/" "192.168.33.2" = false
  /\ occurs ":" "192.168.33.2" = false
  /\ strings.HasPrefix (strip_scheme "https://192.168.33.2:8443/json")
       "192.168.33.2" = true.
Proof.
  exact (parseURIHost_host "https://192.168.33.2:8443/json" "192.168.33.2"
           eq_refl).
Defined.

Lemma parseURIHost_roundtrip_witness :
  parseURIHost "http://192.168.33.2:8443/json" = Ok "192.168.33.2"%string.
Proof.
  assert (Hne : "192.168.33.2"%string <> EmptyString) by discriminate.
  exact (proj1 (parseURIHost_roundtrip "192.168.33.2" ":8443/json" Hne
                  eq_refl eq_refl (or_intror (or_intror eq_refl)))).
Defined.

Lemma convertToOBIS_components_witness :
  exists c d e,
    "16.7.0"%string = Sprintf_obis c d e
    /\ strconv.ParseInt (substring 4 2 (segment "0100100700ff")) 16 64
       = (c, None)
    /\ strconv.ParseInt (substring 6 2 (segment "0100100700ff")) 16 64
       = (d, None)
    /\ strconv.ParseInt (substring 8 2 (segment "0100100700ff")) 16 64
       = (e, None)
    /\ -15 <= c <= 255 /\ -15 <= d <= 255 /\ -15 <= e <= 255
    /\ (all_hex (substring 4 6 (segment "0100100700ff")) = true ->
        0 <= c /\ 0 <= d /\ 0 <= e).
Proof.
  exact (convertToOBIS_components "0100100700ff" "16.7.0" eq_refl).
Defined.

Lemma Sprintf_obis_inj_witness : 1 = 1 /\ 8 = 8 /\ 0 = 0.
Proof. exact (Sprintf_obis_inj 1 8 0 1 8 0 eq_refl). Defined.

Lemma convertToOBIS_errors_witness :
  (String.length (segment "0100010zz0ff") <> 12%nat
   /\ NumError "ParseInt" "0z" ErrSyntax
      = Errorf ("unexpected logical name: " ++ "0100010zz0ff"))
  \/ (String.length (segment "0100010zz0ff") = 12%nat
      /\ exists i : nat,
           (i = 4 \/ i = 6 \/ i = 8)%nat
           /\ pair_ok (segment "0100010zz0ff") i = false
           /\ NumError "ParseInt" "0z" ErrSyntax
              = NumError "ParseInt" (substring i 2 (segment "0100010zz0ff"))
                  ErrSyntax
           /\ forall j : nat,
                (j = 4 \/ j = 6 \/ j = 8)%nat -> (j < i)%nat ->
                pair_ok (segment "0100010zz0ff") j = true).
Proof.
  exact (convertToOBIS_errors "0100010zz0ff"
           (NumError "ParseInt" "0z" ErrSyntax) eq_refl).
Defined.

Lemma GetMeterValues_loop_permutation_witness :
  @GetMeterValues_loop (stub_decoders [] [] {| Values := [] |})
    [item_of "0100010800ff" "150" 2 30; item_of "0100100700ff" "2345" 0 27]
  = @GetMeterValues_loop (stub_decoders [] [] {| Values := [] |})
      [item_of "0100100700ff" "2345" 0 27; item_of "0100010800ff" "150" 2 30].
Proof.
  apply GetMeterValues_loop_permutation; [|apply perm_swap].
  assert (Hk : (omap (@entry (stub_decoders [] [] {| Values := [] |}))
                  [item_of "0100010800ff" "150" 2 30;
                   item_of "0100100700ff" "2345" 0 27]).*1
               = ["1.8.0"; "16.7.0"]%string)
    by (vm_compute; reflexivity).
  rewrite Hk. apply NoDup_cons. split; [|apply NoDup_singleton].
  intros Hin. apply elem_of_cons in Hin as [Hin|Hin]; [discriminate|].
  by apply elem_of_nil in Hin.
Defined.

Lemma non_200_is_never_decoded_witness :
  @GetMeterValues not_found_gateway (stub_decoders [] [] duplicate_reading)
    stub_client
  = Err (Wrapf "failed to get meter values: "
           (Errorf "unexpected status code: 404")).
Proof.
  assert (Hst : StatusCode {| StatusCode := 404; Body := Ok "" |} <> StatusOK)
    by discriminate.
  assert (Hid : meterID stub_client <> EmptyString) by discriminate.
  exact (proj1 (@non_200_is_never_decoded not_found_gateway
                  (stub_decoders [] [] duplicate_reading) stub_client
                  {| StatusCode := 404; Body := Ok "" |} Hst) Hid eq_refl).
Defined.

Lemma DiscoverMeterID_success_witness :
  exists contracts pre id post d,
    @getJSON stub_gateway _ (@Unmarshal_contracts abc_decoders)
      (uri stub_client ++ "/json/metering/derived") = Ok contracts
    /\ contracts = pre ++ id :: post
    /\ (forall id', id' ∈ pre ->
        @first_domain stub_gateway abc_decoders stub_client id' = None)
    /\ @first_domain stub_gateway abc_decoders stub_client id = Some d
    /\ with_meterID stub_client "X" = with_meterID stub_client d.
Proof.
  exact (@DiscoverMeterID_success stub_gateway abc_decoders stub_client
           (with_meterID stub_client "X") eq_refl).
Defined.

Lemma NewClient_success_witness :
  exists host,
    stub_gateway = @Dial stub_network "admin" "secret" host
    /\ host <> EmptyString
    /\ ("" <> EmptyString -> host = ""%string)
    /\ ("" = EmptyString ->
        parseURIHost (defaultScheme "192.168.33.2" "https") = Ok host
        /\ occurs "/" host = false /\ occurs ":" host = false).
Proof.
  exact (proj1 (proj2 (proj2 (proj2 (proj2 (proj2
    (@NewClient_success stub_network abc_decoders "192.168.33.2"
       "admin" "secret" "" "" stub_gateway
       (with_meterID
          {| uri := "https://192.168.33.2"; meterID := "" |} "X")
       eq_refl))))))).
Defined.

Lemma NewClient_errors_witness :
  @NewClient stub_network abc_decoders "https://" "admin" "secret" "" ""
  = Err (Wrapf "host required and could not be derived: "
           (Errorf "invalid uri")).
Proof.
  assert (H1 : "https://"%string <> EmptyString) by discriminate.
  assert (H2 : "admin"%string <> EmptyString) by discriminate.
  assert (H3 : "secret"%string <> EmptyString) by discriminate.
  exact (proj1 (proj2 (proj2 (@NewClient_errors stub_network abc_decoders
                  "https://" "admin" "secret" "" "")))
           H1 H2 H3 eq_refl (Errorf "invalid uri") eq_refl).
Defined.

Lemma GetMeterValues_item_small_scaler_witness :
  @GetMeterValues_item (stub_decoders [] [] {| Values := [] |}) ∅
    (item_of "0100010800ff" "150" 3 27)
  = <["1.8.0"%string
      := (150 * math.float64_of_int (10 ^ 3))%float]> ∅.
Proof.
  assert (Hs : 0 <= 3 <= 22) by lia.
  exact (proj1 (@GetMeterValues_item_small_scaler
                  (stub_decoders [] [] {| Values := [] |}) ∅
                  "0100010800ff" "150" "1.8.0" 3 150%float
                  eq_refl eq_refl Hs)).
Defined.
